(** * WorkAggregation: the crawl-orchestration core of [spider/spider_main.py]

    A shallow embedding of the job-listing spider: the Python values that
    come back from the remote search API, the paging loop of
    [Job51Spider.run], the city-code lookup, the CSV writer process, the
    launcher [run_crawl_once], the timer loop of [main] and the HTML
    preview, followed by the properties the specification states about
    them. *)

From Stdlib Require Import ZArith Lia Bool.
From stdpp Require Import base tactics option list strings gmap pretty.

Open Scope Z_scope.
Set Warnings "-register-all".

(** ** Python values and exceptions *)

(** The values a decoded JSON document is made of.  A [dict] is kept as an
    association list in insertion order; a lookup takes the first binding
    of a key.  JSON floats are left out: none of the fields read by the
    spider is one. *)
Inductive pyval : Type :=
| PNone
| PBool (b : bool)
| PInt (z : Z)
| PStr (s : string)
| PList (l : list pyval)
| PDict (d : list (string * pyval)).

(** The exception classes that the modelled code can see. *)
Inductive exn : Type :=
| TypeError
| AttributeError
| KeyError
| ValueError
| OverflowError
| WebDriverException
| NoSectionError
| NoOptionError
| InterpolationError
| QueueEmpty
| FileNotFoundError
| StopIteration.

(** A computation that either returns or raises. *)
Inductive result (A : Type) : Type :=
| Ok (a : A)
| Raise (e : exn).
Arguments Ok {A} a.
Arguments Raise {A} e.

#[global] Instance result_ret : MRet result := fun _ a => Ok a.
#[global] Instance result_bind : MBind result := fun _ _ f m =>
  match m with
  | Ok a => f a
  | Raise e => Raise e
  end.

Definition is_ok {A} (r : result A) : bool :=
  match r with Ok _ => true | Raise _ => false end.

Module Py.

(** [d.get(key)] on the bindings of a dict. *)
Fixpoint assoc (key : string) (d : list (string * pyval)) : option pyval :=
  match d with
  | [] => None
  | (k, v) :: rest => if String.eqb k key then Some v else assoc key rest
  end.

(** [s1 in s2] for two strings: substring test. *)
Definition substring_of (needle hay : string) : bool :=
  match String.index 0 needle hay with
  | Some _ => true
  | None => false
  end.

(** [v == key] for a string [key]. *)
Definition eq_str (key : string) (v : pyval) : bool :=
  match v with
  | PStr s => String.eqb s key
  | _ => false
  end.

(** [key in v]: key membership for a dict, element membership for a
    list, substring for a string; the other values are not containers. *)
Definition contains (key : string) (v : pyval) : result bool :=
  match v with
  | PDict d => Ok (bool_decide (is_Some (assoc key d)))
  | PList l => Ok (existsb (eq_str key) l)
  | PStr s => Ok (substring_of key s)
  | PNone | PBool _ | PInt _ => Raise TypeError
  end.

(** [v.get(key, default)]: only a dict has the method. *)
Definition get (v : pyval) (key : string) (dflt : pyval) : result pyval :=
  match v with
  | PDict d => Ok (default dflt (assoc key d))
  | _ => Raise AttributeError
  end.

(** [v[key]] for a string key. *)
Definition getitem (v : pyval) (key : string) : result pyval :=
  match v with
  | PDict d => match assoc key d with
               | Some x => Ok x
               | None => Raise KeyError
               end
  | _ => Raise TypeError
  end.

(** Truth value of [v], as [not v] and [v or w] use it. *)
Definition truthy (v : pyval) : bool :=
  match v with
  | PNone => false
  | PBool b => b
  | PInt z => negb (z =? 0)
  | PStr s => negb (String.eqb s EmptyString)
  | PList l => match l with [] => false | _ => true end
  | PDict d => match d with [] => false | _ => true end
  end.

Fixpoint chars (s : string) : list pyval :=
  match s with
  | EmptyString => []
  | String a rest => PStr (String a EmptyString) :: chars rest
  end.

(** The elements [for x in v] walks through: the items of a list, the
    keys of a dict, the characters of a string. *)
Definition iter (v : pyval) : result (list pyval) :=
  match v with
  | PList l => Ok l
  | PDict d => Ok (map (fun kv => PStr (fst kv)) d)
  | PStr s => Ok (chars s)
  | PNone | PBool _ | PInt _ => Raise TypeError
  end.

End Py.

(** ** Records and the result queue *)

(** The dict [Job51Spider.run] builds for one posting.  [provider],
    [keyword] and [industry] are always strings; the other fields hold
    whatever [job.get] returned, [PNone] when the key is missing. *)
Record JobRecord : Type := {
  provider : string;
  keyword : string;
  title : pyval;
  place : pyval;
  salary : pyval;
  experience : pyval;
  education : pyval;
  companytype : pyval;
  industry : string;
  description : pyval
}.

(** What travels on the multiprocessing queue: result dicts and the
    string ["STOP"]. *)
Inductive QItem : Type :=
| QRecord (r : JobRecord)
| QStop.

(** The browser session: [driver.get(url)] and the asynchronous script of
    [request_json], which is determined by keyword, page number and city
    code.  Either call may raise. *)
Record WebDriver : Type := {
  driver_get : string -> result unit;
  execute_async_script : string -> Z -> string -> result pyval
}.

(** The lines [run] prints, kept as events. *)
Inductive LogEvent : Type :=
| LogLimit (count limit : Z)
| LogError (msg : pyval)
| LogDone
| LogProgress (page count limit : Z).

(** ** The spider *)

Module Job51Spider.

Section WithRepr.

(** Python's [str()] of a list or a dict (their [repr]); it is only used
    when the remote API puts such a value in an industry field. *)
Variable py_repr : pyval -> string.

(** [f"{v}"]. *)
Definition format (v : pyval) : string :=
  match v with
  | PNone => "None"
  | PBool true => "True"
  | PBool false => "False"
  | PInt z => pretty z
  | PStr s => s
  | PList _ | PDict _ => py_repr v
  end.

(** The attributes set by [__init__]; [count] changes during [run] and
    lives in the state below. *)
Record t : Type := {
  city : string;
  job : string;
  city_code : string;
  driver : WebDriver;
  limit : Z
}.

(** Where [run] stands: at the top of [while True], inside [for job in
    jobs] with the entries still to visit, or finished. *)
Inductive Pc : Type :=
| LoopHead
| ForJobs (rest : list pyval)
| Returned (v : string)
| Raised (e : exn).

Record state : Type := {
  pc : Pc;
  page : Z;
  count : Z;
  queue : list JobRecord;
  log : list LogEvent
}.

Definition goto (p : Pc) (s : state) : state :=
  {| pc := p; page := page s; count := count s; queue := queue s; log := log s |}.

Definition say (e : LogEvent) (s : state) : state :=
  {| pc := pc s; page := page s; count := count s; queue := queue s;
     log := log s ++ [e] |}.

(** [self.queue.put(result); self.count += 1]. *)
Definition put (r : JobRecord) (s : state) : state :=
  {| pc := pc s; page := page s; count := count s + 1;
     queue := queue s ++ [r]; log := log s |}.

(** The end of one pass of [while True]: the progress line and
    [page += 1]. *)
Definition next_page (self : t) (s : state) : state :=
  {| pc := LoopHead; page := page s + 1; count := count s; queue := queue s;
     log := log s ++ [LogProgress (page s) (count s) (limit self)] |}.

Definition request_json (self : t) (keyword : string) (page_num : Z)
    (jobArea : string) : result pyval :=
  execute_async_script (driver self) keyword page_num jobArea.

(** [data.get("resultbody", {}).get("job", {}).get("items", [])]. *)
Definition items_of (data : pyval) : result pyval :=
  resultbody ← Py.get data "resultbody" (PDict []);
  jobd ← Py.get resultbody "job" (PDict []);
  Py.get jobd "items" (PList []).

(** The dict literal of the loop body, evaluated field by field. *)
Definition make_result (self : t) (entry : pyval) : result JobRecord :=
  jobName ← Py.get entry "jobName" PNone;
  jobAreaString ← Py.get entry "jobAreaString" PNone;
  provideSalaryString ← Py.get entry "provideSalaryString" PNone;
  workYearString ← Py.get entry "workYearString" PNone;
  degreeString ← Py.get entry "degreeString" PNone;
  companyTypeString ← Py.get entry "companyTypeString" PNone;
  industry1 ← Py.get entry "companyIndustryType1Str" PNone;
  industry2 ← Py.get entry "companyIndustryType2Str" PNone;
  jobDescribe ← Py.get entry "jobDescribe" PNone;
  mret {| provider := "前程无忧网"; keyword := job self; title := jobName;
          place := jobAreaString; salary := provideSalaryString;
          experience := workYearString; education := degreeString;
          companytype := companyTypeString;
          industry := format industry1 +:+ " / " +:+ format industry2;
          description := jobDescribe |}.

(** One pass from the top of [while True] up to the [for] loop. *)
Definition loop_head (self : t) (s : state) : state :=
  if bool_decide (limit self <= count s) then
    goto (Returned "over") (say (LogLimit (count s) (limit self)) s)
  else
    match request_json self (job self) (page s) (city_code self) with
    | Raise e => goto (Raised e) s
    | Ok data =>
      match Py.contains "error" data with
      | Raise e => goto (Raised e) s
      | Ok true =>
        match Py.getitem data "error" with
        | Raise e => goto (Raised e) s
        | Ok msg => goto (Returned "over") (say (LogError msg) s)
        end
      | Ok false =>
        match items_of data with
        | Raise e => goto (Raised e) s
        | Ok jobs =>
          if negb (Py.truthy jobs) then goto (Returned "over") (say LogDone s)
          else match Py.iter jobs with
               | Raise e => goto (Raised e) s
               | Ok entries => goto (ForJobs entries) s
               end
        end
      end
    end.

(** One turn of [for job in jobs]. *)
Definition for_jobs (self : t) (rest : list pyval) (s : state) : state :=
  match rest with
  | [] => next_page self s
  | entry :: rest' =>
    if bool_decide (limit self <= count s) then next_page self s
    else match make_result self entry with
         | Raise e => goto (Raised e) s
         | Ok r => goto (ForJobs rest') (put r s)
         end
  end.

Definition step (self : t) (s : state) : state :=
  match pc s with
  | LoopHead => loop_head self s
  | ForJobs rest => for_jobs self rest s
  | Returned _ | Raised _ => s
  end.

(** [run] up to the loop: open the search page (three seconds of sleep
    follow), [page = 1]; [count] is 0 from [__init__]. *)
Definition start (self : t) : state :=
  let s0 := {| pc := LoopHead; page := 1; count := 0; queue := []; log := [] |} in
  match driver_get (driver self)
          ("https://we.51job.com/pc/search?jobArea=" +:+ city_code self) with
  | Raise e => goto (Raised e) s0
  | Ok _ => s0
  end.

Definition steps (self : t) (n : nat) : state := Nat.iter n (step self) (start self).

Definition finished (s : state) : bool :=
  match pc s with
  | Returned _ | Raised _ => true
  | LoopHead | ForJobs _ => false
  end.

(** [run] with a bound on the number of steps: what it returns or raises
    and the state it leaves, [None] while it is still running. *)
Definition run (self : t) (fuel : nat) : option (result string * state) :=
  let s := steps self fuel in
  match pc s with
  | Returned v => Some (Ok v, s)
  | Raised e => Some (Raise e, s)
  | LoopHead | ForJobs _ => None
  end.

(** Steps that are always enough for [run] to finish. *)
Definition enough (self : t) : nat := 3 * Z.to_nat (limit self) + 2.

End WithRepr.

End Job51Spider.

(** ** City codes *)

(** The part of the standard [configparser] that [get_city_code] relies
    on: the parsed sections, the [DEFAULT] section visible from every
    other one, and [get] with its two lookup errors. *)
Module ConfigParser.

Section WithLibrary.

(** [optionxform], by default [str.lower]: applied to option names when
    the file is read and when an option is looked up. *)
Variable optionxform : string -> string.

(** [BasicInterpolation] on a value that holds a percent sign: expands
    [%%] and [%(name)s] against the visible options, or raises. *)
Variable interpolate : gmap string string -> string -> result string.

Record t : Type := {
  defaults : gmap string string;
  sections : gmap string (gmap string string)
}.

(** [_unify_values]: the options seen from [section], its own first. *)
Definition unify_values (config : t) (section : string)
    : result (gmap string string) :=
  match sections config !! section with
  | Some sectiondict => Ok (sectiondict ∪ defaults config)
  | None =>
    if String.eqb section "DEFAULT" then Ok (defaults config)
    else Raise NoSectionError
  end.

(** [before_get]: a value without a percent sign comes back as it is. *)
Definition before_get (d : gmap string string) (value : string) : result string :=
  if Py.substring_of "%" value then interpolate d value else Ok value.

Definition get (config : t) (section option : string) : result string :=
  d ← unify_values config section;
  match d !! optionxform option with
  | Some value => before_get d value
  | None => Raise NoOptionError
  end.

End WithLibrary.

End ConfigParser.

Section CityCode.

Variable optionxform : string -> string.
Variable interpolate : gmap string string -> string -> result string.

(** The module-level [config], read once from [conf.ini] at import. *)
Variable config : ConfigParser.t.

Definition city_warning (city_name : string) : string :=
  "警告: 在 conf.ini 中未找到城市 '" +:+ city_name
    +:+ "' 的代码，将使用全国代码 '000000'。".

(** The code of a city and the lines printed on the way. *)
Definition get_city_code (city_name : string) : result (string * list string) :=
  match ConfigParser.get optionxform interpolate config "citycode" city_name with
  | Ok code => Ok (code, [])
  | Raise NoSectionError | Raise NoOptionError =>
    Ok ("000000", [city_warning city_name])
  | Raise e => Raise e
  end.

(** The entries a lookup in section [citycode] can see. *)
Definition city_table : gmap string string :=
  match ConfigParser.sections config !! "citycode" with
  | Some sectiondict => sectiondict ∪ ConfigParser.defaults config
  | None => ∅
  end.

(** No code of the table holds a percent sign. *)
Definition plain_codes : Prop :=
  map_Forall (fun (name code : string) => Py.substring_of "%" code = false)
    city_table.

End CityCode.

(** A sample table for the examples below. *)
Definition sample_config : ConfigParser.t :=
  {| ConfigParser.defaults := ∅;
     ConfigParser.sections :=
       {[ "citycode" := {[ "北京" := "010000"; "上海" := "020000" ]} ]} |}.

Definition no_interpolation (d : gmap string string) (value : string)
    : result string := Raise InterpolationError.

(** ** The writer process *)

Module WriterProcess.

Definition fieldnames : list string :=
  ["provider"; "keyword"; "title"; "place"; "salary"; "experience";
   "education"; "companytype"; "industry"; "description"].

(** [DictWriter.writerow]: the values of the dict in [fieldnames] order.
    The field [artifact] below is the list of rows handed to the csv
    writer so far, that is the content of the file object; the file object
    is buffered, and what has reached the disk is [on_disk]. *)
Definition row_of (r : JobRecord) : list pyval :=
  [PStr (provider r); PStr (keyword r); title r; place r; salary r;
   experience r; education r; companytype r; PStr (industry r);
   description r].

Definition header_row : list pyval := map PStr fieldnames.

(** What one blocking [queue.get] meets: the next item and the time that
    passes until it can be taken, or nothing at all. *)
Definition Arrival : Type := option (Z * QItem).

(** [queue.get(timeout=timeout)]. *)
Definition queue_get (timeout : Z) (a : Arrival) : result QItem :=
  match a with
  | Some (delay, item) =>
    if bool_decide (delay < timeout) then Ok item else Raise QueueEmpty
  | None => Raise QueueEmpty
  end.

Inductive Exit : Type :=
| StopSignal
| IdleTimeout.

Inductive Status : Type :=
| Draining
| Exited (how : result Exit).

Record state : Type := {
  status : Status;
  gets : nat;
  artifact : list (list pyval)
}.

(** The file right after [writer.writeheader()]; making the directory
    and opening the file are taken to succeed. *)
Definition start : state :=
  {| status := Draining; gets := 0; artifact := [header_row] |}.

(** One pass of [while True]; [arrivals k] is what the [k]-th call of
    [get] meets. *)
Definition step (arrivals : nat -> Arrival) (s : state) : state :=
  match status s with
  | Exited _ => s
  | Draining =>
    match queue_get 60 (arrivals (gets s)) with
    | Ok QStop =>
      {| status := Exited (Ok StopSignal); gets := S (gets s);
         artifact := artifact s |}
    | Ok (QRecord item) =>
      {| status := Draining; gets := S (gets s);
         artifact := artifact s ++ [row_of item] |}
    | Raise QueueEmpty =>
      {| status := Exited (Ok IdleTimeout); gets := gets s;
         artifact := artifact s |}
    | Raise e =>
      {| status := Exited (Raise e); gets := gets s; artifact := artifact s |}
    end
  end.

Definition steps (arrivals : nat -> Arrival) (n : nat) : state :=
  Nat.iter n (step arrivals) start.

(** [run] with a bound on the number of passes. *)
Definition run (arrivals : nat -> Arrival) (fuel : nat)
    : option (result Exit * list (list pyval)) :=
  let s := steps arrivals fuel in
  match status s with
  | Exited how => Some (how, artifact s)
  | Draining => None
  end.

(** The rows that are whole on the disk.  The loop never flushes the
    file: while it runs, the file object decides how far it has emptied
    its buffer, [sync rows] being the number of the rows handed over that
    it has passed on; leaving the [with] block closes the file, and then
    every row is there. *)
Definition on_disk (sync : list (list pyval) -> nat) (s : state)
    : list (list pyval) :=
  match status s with
  | Draining => take (sync (artifact s)) (artifact s)
  | Exited _ => artifact s
  end.

(** The [k]-th [get] hands over a record. *)
Definition yields_record (a : Arrival) : option JobRecord :=
  match queue_get 60 a with
  | Ok (QRecord r) => Some r
  | _ => None
  end.

(** The records handed over by the first [n] calls. *)
Fixpoint popped (arrivals : nat -> Arrival) (n : nat) : list JobRecord :=
  match n with
  | O => []
  | S k => popped arrivals k ++ from_option (fun r => [r]) [] (yields_record (arrivals k))
  end.

End WriterProcess.

(** ** The HTML preview *)

Definition dq : string := String (Ascii.ascii_of_nat 34) EmptyString.
Definition nl : string := String (Ascii.ascii_of_nat 10) EmptyString.

(** The lines up to the opening [<tr>] of the table head. *)
Definition html_prologue : list string :=
  ["<!DOCTYPE html>";
   ("<html lang=" +:+ dq +:+ "zh-CN" +:+ dq +:+ ">");
   "<head>";
   ("    <meta charset=" +:+ dq +:+ "UTF-8" +:+ dq +:+ ">");
   ("<meta name=" +:+ dq +:+ "viewport" +:+ dq +:+ " content=" +:+ dq +:+ "width=device-width, initial-scale=1.0" +:+ dq +:+ ">");
   "<title>招聘数据展示</title>";
   "<style>";
   "body { font-family: Arial, sans-serif; margin: 20px; }";
   "table { width: 100%; border-collapse: collapse; margin-top: 20px; }";
   "th, td { border: 1px solid #ddd; padding: 8px; text-align: left; }";
   "th { background-color: #f2f2f2; }";
   "tr:nth-child(even) { background-color: #f9f9f9; }";
   "tr:hover { background-color: #f1f1f1; }";
   "</style>";
   "</head>";
   "<body>";
   "<h1>招聘数据展示</h1>";
   "<table>";
   "<thead>";
   "<tr>"].

(** The lines between the header cells and the data rows. *)
Definition html_head_close : list string :=
  ["</tr>";
   "</thead>";
   "<tbody>"].

(** The lines after the data rows, with the navigation bar. *)
Definition html_epilogue : list string :=
  ["</tbody>";
   "</table>";
   "</body>";
   (nl
    +:+ "        <!-- 通用导航栏 -->" +:+ nl
    +:+ "        <div class=" +:+ dq +:+ "navbar" +:+ dq +:+ ">" +:+ nl
    +:+ "            <a href=" +:+ dq +:+ "/" +:+ dq +:+ " class=" +:+ dq +:+ "nav-button" +:+ dq +:+ ">返回主页</a>" +:+ nl
    +:+ "        </div>" +:+ nl
    +:+ "        <style>" +:+ nl
    +:+ "            .navbar {" +:+ nl
    +:+ "                position: fixed; top: 0; left: 0; width: 100%;" +:+ nl
    +:+ "                background-color: #333; padding: 10px 20px;" +:+ nl
    +:+ "                box-shadow: 0 2px 5px rgba(0,0,0,0.2); z-index: 1000;" +:+ nl
    +:+ "                box-sizing: border-box; /* 确保 padding 不会撑大宽度 */" +:+ nl
    +:+ "            }" +:+ nl
    +:+ "            .nav-button {" +:+ nl
    +:+ "                color: white; text-decoration: none; padding: 8px 15px;" +:+ nl
    +:+ "                border-radius: 5px; transition: background-color 0.3s;" +:+ nl
    +:+ "            }" +:+ nl
    +:+ "            .nav-button:hover { background-color: #555; }" +:+ nl
    +:+ "            /* 为页面主体增加上边距，防止被导航栏遮挡 */" +:+ nl
    +:+ "            body { padding-top: 60px; }" +:+ nl
    +:+ "        </style>" +:+ nl
    +:+ "        ");
   "</html>"].

Definition known_headers : list string :=
  ["provider"; "keyword"; "title"; "place"; "salary"; "experience";
   "education"; "companytype"; "industry"; "description"].

Definition th (header : string) : string := "<th>" +:+ header +:+ "</th>".
Definition td (cell : string) : string := "<td>" +:+ cell +:+ "</td>".

(** The lines of one data row. *)
Definition html_row (row : list string) : list string :=
  ["<tr>"] ++ map td row ++ ["</tr>"].

(** [html_content] for given headers and rows. *)
Definition html_content (headers : list string) (rows : list (list string))
    : list string :=
  html_prologue ++ map th headers ++ html_head_close
    ++ concat (map html_row rows) ++ html_epilogue.

(** ['\n'.join(lines)]. *)
Fixpoint join_lines (lines : list string) : string :=
  match lines with
  | [] => EmptyString
  | [line] => line
  | line :: rest => line +:+ nl +:+ join_lines rest
  end.

(** The [try] block: open the file, take the first row of the reader as
    headers and the others as rows.  [open_csv path] is what opening and
    reading the file at [path] gives: the rows of the csv reader, or the
    error of [open].  Taking the first row of an empty reader raises
    [StopIteration]. *)
Definition read_table (open_csv : string -> result (list (list string)))
    (csv_file : string) : result (list string * list (list string)) :=
  reader ← open_csv csv_file;
  match reader with
  | [] => Raise StopIteration
  | headers :: rows => Ok (headers, rows)
  end.

Definition html_warning (csv_file : string) : string :=
  "警告: CSV文件 '" +:+ csv_file +:+ "' 为空或不存在，将生成一个空的HTML表格。".

(** The lines written to the HTML file and the lines printed.  Making
    the directory of the HTML file and writing it are taken to succeed. *)
Definition generate_html_from_csv (open_csv : string -> result (list (list string)))
    (csv_file : string) : result (list string * list string) :=
  match read_table open_csv csv_file with
  | Ok (headers, rows) => Ok (html_content headers rows, [])
  | Raise FileNotFoundError | Raise StopIteration =>
    let headers : list string := [] in
    let rows : list (list string) := [] in
    let headers := match headers with [] => known_headers | _ => headers end in
    Ok (html_content headers rows, [html_warning csv_file])
  | Raise e => Raise e
  end.

(** The number of lines of [lines] equal to [tag]. *)
Definition count_lines (tag : string) (lines : list string) : nat :=
  length (filter (fun line => line = tag) lines).

(** The number of lines of [lines] that begin with [tag]. *)
Definition count_prefix (tag : string) (lines : list string) : nat :=
  length (filter (fun line => String.prefix tag line = true) lines).

(** ** One batch: [run_crawl_once] *)

Definition DEFAULT_CITIES : list string :=
  ["北京"; "上海"; "广州"; "深圳"; "杭州"; "成都"; "南京"; "武汉"; "西安"; "苏州"; "重庆";
   "长沙"; "天津"; "青岛"; "厦门"; "宁波"; "大连"; "福州"; "济南"; "无锡"; "合肥"; "郑州";
   "沈阳"; "昆明"; "哈尔滨"; "石家庄"; "南昌"; "东莞"; "佛山"; "珠海"; "常州"; "温州"; "全国"].

Definition DEFAULT_JOBS : list string :=
  ["Java"; "Python"; "Go"; "C++"; "PHP"; "后端开发"; "服务器"; "前端开发";
   "JavaScript"; "Vue"; "React"; "小程序"; "Android"; "iOS"; "数据分析";
   "数据挖掘"; "大数据"; "算法工程师"; "机器学习"; "人工智能"; "AI"; "深度学习"; "自然语言处理";
   "NLP"; "推荐系统"; "软件测试"; "测试开发"; "自动化测试"; "运维"; "DevOps"; "SRE";
   "游戏开发"; "Unity"; "UE4"; "UE5"; "游戏策划"; "嵌入式"; "物联网"; "IoT"; "硬件";
   "产品经理"; "项目经理"; "技术支持"; "网络安全"; "爬虫"; "可视化"; "UI设计师"; "销售"; "运营"].

(** The [timer] entry of the configuration: only [enable] is read unless
    it is true, and the caller may leave the other keys out. *)
Record TimerSettings : Type := {
  enable : bool;
  begin_hour : option Z;
  begin_minute : option Z;
  end_hour : option Z;
  end_minute : option Z;
  interval : option Z
}.

(** [dict_parameter], a field per key; [None] is a key that is absent. *)
Module Param.
Record t : Type := {
  city : option (list string);
  job : option (list string);
  limit : option Z;
  concurrent : option bool;
  timer : option TimerSettings
}.
End Param.

(** [dict_parameter.get(key) or fallback] for a list of strings. *)
Definition get_or (entry : option (list string)) (fallback : list string)
    : list string :=
  match entry with
  | Some (x :: l) => x :: l
  | Some [] | None => fallback
  end.

Definition city_list (dict_parameter : Param.t) : list string :=
  get_or (Param.city dict_parameter) DEFAULT_CITIES.

Definition job_list (dict_parameter : Param.t) : list string :=
  get_or (Param.job dict_parameter) DEFAULT_JOBS.

Definition limit_per_task (dict_parameter : Param.t) : Z :=
  default 999999 (Param.limit dict_parameter).

Definition use_concurrent (dict_parameter : Param.t) : bool :=
  default true (Param.concurrent dict_parameter).

(** A task: a city and a job keyword. *)
Definition Task : Type := (string * string)%type.

(** The tasks in the order of the two nested [for] loops. *)
Definition tasks_of (cities jobs : list string) : list Task :=
  flat_map (fun city => map (fun job => (city, job)) jobs) cities.

Definition tasks (dict_parameter : Param.t) : list Task :=
  tasks_of (city_list dict_parameter) (job_list dict_parameter).

(** The body shared by [SpiderProcess.run] and [run_single_task]: open a
    browser, resolve the city, run the spider; any exception is caught and
    printed.  The value is the list of records put on the queue. *)
Section SingleTask.

Variable py_repr : pyval -> string.
Variable optionxform : string -> string.
Variable interpolate : gmap string string -> string -> result string.
Variable config : ConfigParser.t.

(** [webdriver.Chrome(options=options)] for the task at hand. *)
Variable Chrome : Task -> result WebDriver.

Definition run_single_task (city job : string) (limit : Z) : list JobRecord :=
  match Chrome (city, job) with
  | Raise _ => []
  | Ok process_driver =>
    match get_city_code optionxform interpolate config city with
    | Raise _ => []
    | Ok (city_code, _) =>
      let spider :=
        {| Job51Spider.city := city; Job51Spider.job := job;
           Job51Spider.city_code := city_code;
           Job51Spider.driver := process_driver;
           Job51Spider.limit := limit |} in
      Job51Spider.queue
        (Job51Spider.steps py_repr spider (Job51Spider.enough spider))
    end
  end.

(** What the producer of a task puts on the queue in a batch whose tasks
    all have the limit [limit]. *)
Definition producer (limit : Z) (t : Task) : list JobRecord :=
  run_single_task (fst t) (snd t) limit.

End SingleTask.

(** The processes of one batch and what they put on the queue.  A
    producer is known by the records it still has to put; the launcher by
    its place in [run_crawl_once].  The relation says which moves are
    possible, not that they happen: the writer is not part of it, and a
    real producer may wait for ever before it exits, or at its last
    records, when nobody reads the queue any more.  It serves for what a
    batch never does. *)
Module Batch.

Inductive Worker : Type :=
| Running (todo : list JobRecord)
| Exited.

Inductive Launcher : Type :=
| Spawning (rest : list Task)
| Joining (i : nat)
| SerialNext (rest : list Task)
| SerialTask (todo : list JobRecord) (rest : list Task)
| Stopping
| Finished.

Record sys : Type := {
  launcher : Launcher;
  processes : list Worker;
  q : list QItem
}.

Definition init (concurrent : bool) (tasks : list Task) : sys :=
  {| launcher := if concurrent then Spawning tasks else SerialNext tasks;
     processes := []; q := [] |}.

Section Steps.

(** The records the producer of a task puts before it ends. *)
Variable produce : Task -> list JobRecord.

(** One atomic move of the launcher or of one producer process. *)
Inductive step : sys -> sys -> Prop :=
| step_start t rest ps qu :
    step {| launcher := Spawning (t :: rest); processes := ps; q := qu |}
         {| launcher := Spawning rest;
            processes := ps ++ [Running (produce t)]; q := qu |}
| step_started ps qu :
    step {| launcher := Spawning []; processes := ps; q := qu |}
         {| launcher := Joining 0; processes := ps; q := qu |}
| step_join i ps qu :
    ps !! i = Some Exited ->
    step {| launcher := Joining i; processes := ps; q := qu |}
         {| launcher := Joining (S i); processes := ps; q := qu |}
| step_joined i ps qu :
    ps !! i = None ->
    step {| launcher := Joining i; processes := ps; q := qu |}
         {| launcher := Stopping; processes := ps; q := qu |}
| step_worker_put i r todo la ps qu :
    ps !! i = Some (Running (r :: todo)) ->
    step {| launcher := la; processes := ps; q := qu |}
         {| launcher := la; processes := <[i := Running todo]> ps;
            q := qu ++ [QRecord r] |}
| step_worker_exit i la ps qu :
    ps !! i = Some (Running []) ->
    step {| launcher := la; processes := ps; q := qu |}
         {| launcher := la; processes := <[i := Exited]> ps; q := qu |}
| step_serial_call t rest ps qu :
    step {| launcher := SerialNext (t :: rest); processes := ps; q := qu |}
         {| launcher := SerialTask (produce t) rest; processes := ps; q := qu |}
| step_serial_put r todo rest ps qu :
    step {| launcher := SerialTask (r :: todo) rest; processes := ps; q := qu |}
         {| launcher := SerialTask todo rest; processes := ps;
            q := qu ++ [QRecord r] |}
| step_serial_return rest ps qu :
    step {| launcher := SerialTask [] rest; processes := ps; q := qu |}
         {| launcher := SerialNext rest; processes := ps; q := qu |}
| step_serial_done ps qu :
    step {| launcher := SerialNext []; processes := ps; q := qu |}
         {| launcher := Stopping; processes := ps; q := qu |}
| step_stop ps qu :
    step {| launcher := Stopping; processes := ps; q := qu |}
         {| launcher := Finished; processes := ps; q := qu ++ [QStop] |}.

(** The states a batch over [tasks] can be in. *)
Inductive reachable (concurrent : bool) (tasks : list Task) : sys -> Prop :=
| reach_init : reachable concurrent tasks (init concurrent tasks)
| reach_step s s' :
    reachable concurrent tasks s -> step s s' -> reachable concurrent tasks s'.

End Steps.



Definition todo_of (w : Worker) : list JobRecord :=
  match w with
  | Running todo => todo
  | Exited => []
  end.

End Batch.

(** ** The timer loop of [main] *)

(** A naive [datetime.datetime]. *)
Record datetime : Type := {
  year : Z;
  month : Z;
  day : Z;
  hour : Z;
  minute : Z;
  second : Z;
  microsecond : Z
}.

(** A number that fits a C [int], as the arguments of
    [datetime.replace] must. *)
Definition fits_int (z : Z) : Prop := -2147483648 <= z <= 2147483647.

(** [now.replace(hour=h, minute=m, second=0, microsecond=0)]: the
    arguments are first turned into C integers, an [OverflowError] when
    one does not fit; a field out of range is then a [ValueError]. *)
Definition replace_time (now : datetime) (h m : Z) : result datetime :=
  if bool_decide (fits_int h /\ fits_int m) then
    if bool_decide (0 <= h < 24 /\ 0 <= m < 60) then
      Ok {| year := year now; month := month now; day := day now;
            hour := h; minute := m; second := 0; microsecond := 0 |}
    else Raise ValueError
  else Raise OverflowError.

(** Comparison of two datetimes: field by field, the year first. *)
Fixpoint lex_compare (a b : list Z) : comparison :=
  match a, b with
  | x :: a', y :: b' =>
    match x ?= y with
    | Eq => lex_compare a' b'
    | c => c
    end
  | [], [] => Eq
  | [], _ :: _ => Lt
  | _ :: _, [] => Gt
  end.

Definition fields (d : datetime) : list Z :=
  [year d; month d; day d; hour d; minute d; second d; microsecond d].

Definition dt_le (a b : datetime) : bool :=
  match lex_compare (fields a) (fields b) with
  | Gt => false
  | Eq | Lt => true
  end.

Definition dt_lt (a b : datetime) : bool :=
  match lex_compare (fields a) (fields b) with
  | Lt => true
  | Eq | Gt => false
  end.

(** What the loop does that can be seen from outside. *)
Inductive MainEvent : Type :=
| RunBatch
| Sleep (seconds : Z).

(** The longest time in seconds that [time.sleep] can take in: it keeps
    time as a 64-bit count of nanoseconds. *)
Definition SLEEP_MAX : Z := 9223372036.

(** [time.sleep(seconds)] for an integer: a length beyond [SLEEP_MAX]
    either way is an [OverflowError], a negative one a [ValueError]. *)
Definition time_sleep (seconds : Z) : result (list MainEvent) :=
  if bool_decide (- SLEEP_MAX <= seconds <= SLEEP_MAX) then
    if bool_decide (0 <= seconds) then Ok [Sleep seconds] else Raise ValueError
  else Raise OverflowError.

(** [begin_time <= now < end_time]. *)
Definition in_window (bh bm eh em : Z) (now : datetime) : result bool :=
  begin_time ← replace_time now bh bm;
  end_time ← replace_time now eh em;
  mret (dt_le begin_time now && dt_lt now end_time).

(** One pass of [while True] at time [now]: the events of the pass and
    whether it went through. *)
Definition tick (bh bm eh em interval_minutes : Z) (now : datetime)
    : list MainEvent * result unit :=
  match in_window bh bm eh em now with
  | Raise e => ([], Raise e)
  | Ok true =>
    match time_sleep (interval_minutes * 60) with
    | Ok evs => (RunBatch :: evs, Ok tt)
    | Raise e => ([RunBatch], Raise e)
    end
  | Ok false =>
    match time_sleep 60 with
    | Ok evs => (evs, Ok tt)
    | Raise e => ([], Raise e)
    end
  end.

(** The first [ticks] passes of the loop; [clock k] is the time read by
    pass [k]. *)
Fixpoint timer_loop (bh bm eh em interval_minutes : Z)
    (clock : nat -> datetime) (k ticks : nat) : list MainEvent * result unit :=
  match ticks with
  | O => ([], Ok tt)
  | S ticks' =>
    match tick bh bm eh em interval_minutes (clock k) with
    | (evs, Ok _) =>
      let '(evs', r) :=
        timer_loop bh bm eh em interval_minutes clock (S k) ticks' in
      (evs ++ evs', r)
    | (evs, Raise e) => (evs, Raise e)
    end
  end.

(** [timer_settings[key]]. *)
Definition setting (entry : option Z) : result Z :=
  match entry with
  | Some z => Ok z
  | None => Raise KeyError
  end.

(** [main]: one batch at once when the timer is off, the loop otherwise
    (observed for [ticks] passes). *)
Definition main (dict_parameter : Param.t) (clock : nat -> datetime)
    (ticks : nat) : list MainEvent * result unit :=
  let timer_settings :=
    default {| enable := false; begin_hour := None; begin_minute := None;
               end_hour := None; end_minute := None; interval := None |}
            (Param.timer dict_parameter) in
  if negb (enable timer_settings) then ([RunBatch], Ok tt)
  else
    match
      bh ← setting (begin_hour timer_settings);
      bm ← setting (begin_minute timer_settings);
      eh ← setting (end_hour timer_settings);
      em ← setting (end_minute timer_settings);
      interval_minutes ← setting (interval timer_settings);
      mret (bh, bm, eh, em, interval_minutes)
    with
    | Raise e => ([], Raise e)
    | Ok (bh, bm, eh, em, interval_minutes) =>
      timer_loop bh bm eh em interval_minutes clock 0 ticks
    end.

(** Minutes since midnight. *)
Definition minute_of_day (h m : Z) : Z := h * 60 + m.

(** A time of day as [datetime] keeps it. *)
Definition valid_time (d : datetime) : Prop :=
  0 <= hour d < 24 /\ 0 <= minute d < 60 /\ 0 <= second d < 60
  /\ 0 <= microsecond d < 1000000.

(** ** Notions used by the statements *)

(** The three ways [Job51Spider.run] leaves its loop, each with the line
    it prints. *)
Inductive Cause : Type :=
| LimitReached
| FetchError
| Exhausted.

Definition cause_of_event (e : LogEvent) : option Cause :=
  match e with
  | LogLimit _ _ => Some LimitReached
  | LogError _ => Some FetchError
  | LogDone => Some Exhausted
  | LogProgress _ _ _ => None
  end.

(** [run] has returned in state [s], and the last line it printed names
    cause [c]. *)
Definition stopped_by (c : Cause) (s : Job51Spider.state) : Prop :=
  Job51Spider.pc s = Job51Spider.Returned "over"
  /\ last (Job51Spider.log s) ≫= cause_of_event = Some c.

(** The response carries an [error] key. *)
Definition has_error (data : pyval) : Prop := Py.contains "error" data = Ok true.

(** The response has no entries: its item list is empty or missing. *)
Definition zero_entries (data : pyval) : Prop :=
  exists jobs, Job51Spider.items_of data = Ok jobs /\ Py.truthy jobs = false.

Definition is_dict (v : pyval) : Prop :=
  match v with
  | PDict _ => True
  | _ => False
  end.

(** A response of the shape the search API promises: a dict that either
    has an [error] key or whose item list, when there is one, is a list of
    dicts. *)
Definition well_formed (data : pyval) : Prop :=
  is_dict data
  /\ (has_error data
      \/ exists jobs, Job51Spider.items_of data = Ok jobs
           /\ (Py.truthy jobs = false
               \/ exists entries, jobs = PList entries /\ Forall is_dict entries)).

(** A session whose page loads and whose every fetch returns a
    well-formed response. *)
Definition well_behaved (drv : WebDriver) : Prop :=
  (forall url, driver_get drv url = Ok tt)
  /\ forall keyword page_num jobArea,
       exists data, execute_async_script drv keyword page_num jobArea = Ok data
                    /\ well_formed data.

(** A bound on the steps [run] still takes from a state. *)
Definition remaining (self : Job51Spider.t) (s : Job51Spider.state) : nat :=
  let d := Z.to_nat (Job51Spider.limit self - Job51Spider.count s) in
  match Job51Spider.pc s with
  | Job51Spider.Returned _ | Job51Spider.Raised _ => 0
  | Job51Spider.LoopHead => 3 * d + 1
  | Job51Spider.ForJobs [] => 3 * d + 2
  | Job51Spider.ForJobs (_ :: _) => match d with O => 2 | S _ => 3 * d end
  end%nat.

(** The counter is the number of records put, and is within the limit
    (within 0 for a negative limit). *)
Definition counted (self : Job51Spider.t) (s : Job51Spider.state) : Prop :=
  Job51Spider.count s = Z.of_nat (length (Job51Spider.queue s))
  /\ Job51Spider.count s <= Z.max 0 (Job51Spider.limit self).

(** No exception so far, every entry still to visit is a dict, and a
    return comes with its cause. *)
Definition sound (s : Job51Spider.state) : Prop :=
  match Job51Spider.pc s with
  | Job51Spider.ForJobs rest => Forall is_dict rest
  | Job51Spider.Raised _ => False
  | Job51Spider.Returned v => exists c, stopped_by c s
  | Job51Spider.LoopHead => True
  end.

(** Whenever [run] has returned, it returned ["over"] after printing the
    line of one of the three causes. *)
Definition returned_over (s : Job51Spider.state) : Prop :=
  forall v, Job51Spider.pc s = Job51Spider.Returned v ->
    v = "over" /\ exists c, last (Job51Spider.log s) ≫= cause_of_event = Some c.

(** Sample sessions. *)
Definition page_of (entries : list pyval) : pyval :=
  PDict [("resultbody", PDict [("job", PDict [("items", PList entries)])])].

Definition sample_entry (name : string) : pyval :=
  PDict [("jobName", PStr name); ("companyIndustryType1Str", PStr "互联网");
         ("companyIndustryType2Str", PStr "软件")].

(** Three postings on each of the first two pages, none after. *)
Definition sample_driver : WebDriver :=
  {| driver_get := fun _ => Ok tt;
     execute_async_script := fun keyword page_num jobArea =>
       if bool_decide (page_num <= 2) then
         Ok (page_of [sample_entry "a"; sample_entry "b"; sample_entry "c"])
       else Ok (page_of []) |}.

(** Every fetch answers with an error. *)
Definition failing_driver : WebDriver :=
  {| driver_get := fun _ => Ok tt;
     execute_async_script := fun keyword page_num jobArea =>
       Ok (PDict [("error", PStr "TypeError: Failed to fetch")]) |}.

(** Every fetch answers with a page of two entries, the second of which
    is a number and not an object. *)
Definition malformed_driver : WebDriver :=
  {| driver_get := fun _ => Ok tt;
     execute_async_script := fun keyword page_num jobArea =>
       Ok (page_of [sample_entry "a"; PInt 5]) |}.

Definition sample_spider (drv : WebDriver) (limit : Z) : Job51Spider.t :=
  {| Job51Spider.city := "北京"; Job51Spider.job := "Java";
     Job51Spider.city_code := "010000"; Job51Spider.driver := drv;
     Job51Spider.limit := limit |}.

Definition sample_repr (v : pyval) : string := "[...]".

(** What the [k]-th [get] of the writer meets: the sentinel in time, a
    record in time, or nothing for 60 seconds. *)
Definition sentinel_at (arrivals : nat -> WriterProcess.Arrival) (k : nat) : Prop :=
  exists delay, arrivals k = Some (delay, QStop) /\ delay < 60.

Definition record_at (arrivals : nat -> WriterProcess.Arrival) (k : nat)
    (r : JobRecord) : Prop :=
  exists delay, arrivals k = Some (delay, QRecord r) /\ delay < 60.

Definition timeout_at (arrivals : nat -> WriterProcess.Arrival) (k : nat) : Prop :=
  arrivals k = None
  \/ exists delay item, arrivals k = Some (delay, item) /\ 60 <= delay.

(** The writer has seen nothing but records in its first [n] calls. *)
Definition only_records (arrivals : nat -> WriterProcess.Arrival) (n : nat) : Prop :=
  forall j, (j < n)%nat -> exists r, record_at arrivals j r.

(** What holds of the writer after [n] passes. *)
Definition drained (arrivals : nat -> WriterProcess.Arrival) (n : nat)
    (s : WriterProcess.state) : Prop :=
  match WriterProcess.status s with
  | WriterProcess.Draining =>
    WriterProcess.gets s = n /\ only_records arrivals n
    /\ WriterProcess.artifact s
       = WriterProcess.header_row
         :: map WriterProcess.row_of (WriterProcess.popped arrivals n)
  | WriterProcess.Exited how =>
    exists k, (k < n)%nat /\ only_records arrivals k
      /\ (sentinel_at arrivals k /\ how = Ok WriterProcess.StopSignal
          \/ timeout_at arrivals k /\ how = Ok WriterProcess.IdleTimeout)
      /\ WriterProcess.artifact s
         = WriterProcess.header_row
           :: map WriterProcess.row_of (WriterProcess.popped arrivals k)
  end.

(** Two records arrive one second apart, then the sentinel. *)
Definition sample_record (name : string) : JobRecord :=
  {| provider := "前程无忧网"; keyword := "Java"; title := PStr name;
     place := PNone; salary := PNone; experience := PNone; education := PNone;
     companytype := PNone; industry := "None / None"; description := PNone |}.

Definition sample_arrivals (k : nat) : WriterProcess.Arrival :=
  match k with
  | 0%nat => Some (1, QRecord (sample_record "a"))
  | 1%nat => Some (1, QRecord (sample_record "b"))
  | _ => Some (0, QStop)
  end.

(** What the specification expects of one pass of the timer loop at time
    [now]: a batch and a sleep of [interval_minutes] when the minute of
    [now] lies in the window, a sleep of one minute otherwise. *)
Definition expected_pass (bh bm eh em interval_minutes : Z) (now : datetime)
    : list MainEvent :=
  if bool_decide (minute_of_day bh bm <= minute_of_day (hour now) (minute now)
                  /\ minute_of_day (hour now) (minute now) < minute_of_day eh em)
  then [RunBatch; Sleep (interval_minutes * 60)]
  else [Sleep 60].

Definition at_time (h m s : Z) : datetime :=
  {| year := 2025; month := 6; day := 1; hour := h; minute := m; second := s;
     microsecond := 0 |}.

(** The configuration of the schedule example: window 02:00 to 05:00,
    every 60 minutes. *)
Definition night_timer : TimerSettings :=
  {| enable := true; begin_hour := Some 2; begin_minute := Some 0;
     end_hour := Some 5; end_minute := Some 0; interval := Some 60 |}.

Definition night_parameter : Param.t :=
  {| Param.city := Some ["北京"]; Param.job := Some ["软件"];
     Param.limit := Some 5; Param.concurrent := Some false;
     Param.timer := Some night_timer |}.

(** Passes at 01:59:30, 02:00:00 and 04:59:59. *)
Definition night_clock (k : nat) : datetime :=
  match k with
  | 0%nat => at_time 1 59 30
  | 1%nat => at_time 2 0 0
  | _ => at_time 4 59 59
  end.

(** A file system without the artifact. *)
Definition no_file (path : string) : result (list (list string)) :=
  Raise FileNotFoundError.

(** A caller that passes empty lists of cities and jobs. *)
Definition empty_lists_parameter : Param.t :=
  {| Param.city := Some []; Param.job := Some []; Param.limit := Some 5;
     Param.concurrent := Some false; Param.timer := None |}.

(** *** Notions about a batch *)

Section BatchNotions.

Import Batch.

Variable produce : Task -> list JobRecord.

(** Everything the producers of [tasks] put, task after task. *)
Definition all_records (tasks : list Task) : list JobRecord :=
  concat (map produce tasks).

(** The records the launcher's own flow still has to put (serial mode),
    or that tasks not yet started will put. *)
Definition launcher_pending (la : Launcher) : list JobRecord :=
  match la with
  | Spawning rest | SerialNext rest => all_records rest
  | SerialTask todo rest => todo ++ all_records rest
  | Joining _ | Stopping | Finished => []
  end.

Definition workers_pending (ps : list Worker) : list JobRecord :=
  concat (map todo_of ps).

Definition all_exited (ps : list Worker) : Prop :=
  Forall (fun w => w = Exited) ps.

(** What holds in every state of a batch over [tasks]. *)
Definition batch_inv (concurrent : bool) (tasks : list Task) (s : sys) : Prop :=
  exists recs,
    q s = map QRecord recs
          ++ match launcher s with Finished => [QStop] | _ => [] end
    /\ recs ++ workers_pending (processes s) ++ launcher_pending (launcher s)
       ≡ₚ all_records tasks
    /\ (concurrent = false ->
        processes s = []
        /\ recs ++ launcher_pending (launcher s) = all_records tasks)
    /\ match launcher s with
       | Spawning rest =>
         concurrent = true
         /\ (length (processes s) + length rest = length tasks)%nat
       | Joining i =>
         concurrent = true /\ length (processes s) = length tasks
         /\ forall j, (j < i)%nat -> (j < length (processes s))%nat ->
              processes s !! j = Some Exited
       | SerialNext _ | SerialTask _ _ => concurrent = false
       | Stopping | Finished =>
         all_exited (processes s)
         /\ (concurrent = true -> length (processes s) = length tasks)
       end.

End BatchNotions.

(** Two tasks run with the sample session and table, five records each
    at most. *)
Definition sample_produce : Task -> list JobRecord :=
  producer sample_repr id no_interpolation sample_config
    (fun _ => Ok sample_driver) 5.

Definition sample_tasks : list Task := [("北京", "Java"); ("上海", "Java")].

(** A file object that keeps everything in its buffer until it is closed,
    as it does with rows that are short of its buffer size. *)
Definition unflushed (rows : list (list pyval)) : nat := 0.

(** ** Further notions about the spider *)

(** The entries page [p] adds to the run of a spider, [None] when the
    fetch of page [p] ends the loop. *)
Definition page_entries (self : Job51Spider.t) (p : Z) : option (list pyval) :=
  match Job51Spider.request_json self (Job51Spider.job self) p
          (Job51Spider.city_code self) with
  | Ok data =>
    match Py.contains "error" data with
    | Ok false =>
      match Job51Spider.items_of data with
      | Ok jobs =>
        if Py.truthy jobs then
          match Py.iter jobs with
          | Ok entries => Some entries
          | Raise _ => None
          end
        else None
      | Raise _ => None
      end
    | Ok true | Raise _ => None
    end
  | Raise _ => None
  end.

(** The entries of pages [p], [p + 1], ... up to the first page that ends
    the loop, looking at [k] pages at most. *)
Fixpoint available (self : Job51Spider.t) (p : Z) (k : nat) : list pyval :=
  match k with
  | O => []
  | S k' =>
    match page_entries self p with
    | Some entries => entries ++ available self (p + 1) k'
    | None => []
    end
  end.

(** The record of an entry, when it has one. *)
Definition record_of (py_repr : pyval -> string) (self : Job51Spider.t)
    (entry : pyval) : option JobRecord :=
  match Job51Spider.make_result py_repr self entry with
  | Ok r => Some r
  | Raise _ => None
  end.

(** Where [run] stands with respect to the page it is on: the page number
    is at most one more than the records put, and inside the [for] loop
    either a record of this page was put or one is about to be. *)
Definition paged (self : Job51Spider.t) (s : Job51Spider.state) : Prop :=
  1 <= Job51Spider.page s <= Job51Spider.count s + 1
  /\ match Job51Spider.pc s with
     | Job51Spider.ForJobs rest =>
       Job51Spider.page s <= Job51Spider.count s
       \/ (rest <> [] /\ Job51Spider.count s < Job51Spider.limit self)
     | _ => True
     end.

(** ** Further notions about a batch *)

(** The records on a queue, in order, the sentinel left out. *)
Fixpoint records_of (qu : list QItem) : list JobRecord :=
  match qu with
  | [] => []
  | QRecord r :: rest => r :: records_of rest
  | QStop :: rest => records_of rest
  end.

(** [merge ls out]: [out] is made of the elements of the lists [ls], each
    list read from its head to its end, the lists taken in any turn. *)
Inductive merge {A : Type} : list (list A) -> list A -> Prop :=
| merge_done ls : Forall (fun l => l = []) ls -> merge ls []
| merge_take i x l ls out :
    ls !! i = Some (x :: l) -> merge (<[i := l]> ls) out -> merge ls (x :: out).

(** What holds of the order of the queue in a concurrent batch: the
    queue is a merge of what each started process has put so far, and
    the [i]-th process is the producer of the [i]-th task. *)
Definition fifo_inv (produce : Task -> list JobRecord) (tasks : list Task)
    (s : Batch.sys) : Prop :=
  exists dones : list (list JobRecord),
    merge dones (records_of (Batch.q s))
    /\ length dones = length (Batch.processes s)
    /\ (forall i w, Batch.processes s !! i = Some w ->
          exists t done, tasks !! i = Some t /\ dones !! i = Some done
                         /\ produce t = done ++ Batch.todo_of w)
    /\ match Batch.launcher s with
       | Batch.Spawning rest => drop (length (Batch.processes s)) tasks = rest
       | _ => length (Batch.processes s) = length tasks
       end.

(** A queue handed to the writer with every item in time: the [k]-th
    [get] meets the [k]-th item after less than 60 seconds. *)
Definition in_time (qu : list QItem) (arrivals : nat -> WriterProcess.Arrival)
    : Prop :=
  forall k item, qu !! k = Some item ->
    exists delay, arrivals k = Some (delay, item) /\ delay < 60.

(** The arrivals that hand over a queue at once. *)
Definition at_once (qu : list QItem) (k : nat) : WriterProcess.Arrival :=
  match qu !! k with
  | Some item => Some (0, item)
  | None => None
  end.

(** A serial batch of one task with one record, at its end. *)
Definition tiny_produce (t : Task) : list JobRecord := [sample_record "a"].

Definition tiny_tasks : list Task := [("北京", "Java")].

Definition tiny_final : Batch.sys :=
  {| Batch.launcher := Batch.Finished; Batch.processes := [];
     Batch.q := [QRecord (sample_record "a"); QStop] |}.

(** A concurrent batch of two tasks whose producers put two records
    each, caught in the joins: the second process has put its two records,
    the first one has put one, between the two of the second. *)
Definition turn_produce (t : Task) : list JobRecord :=
  [sample_record (fst t); sample_record (snd t)].

Definition turn_tasks : list Task := [("北京", "Java"); ("上海", "Go")].

Definition turn_state : Batch.sys :=
  {| Batch.launcher := Batch.Joining 0;
     Batch.processes := [Batch.Running [sample_record "Java"];
                         Batch.Running []];
     Batch.q := [QRecord (sample_record "上海"); QRecord (sample_record "北京");
                 QRecord (sample_record "Go")] |}.



(** ** Further notions about the timer *)

(** The minute of [now] lies in the window. *)
Definition inside (bh bm eh em : Z) (now : datetime) : Prop :=
  minute_of_day bh bm <= minute_of_day (hour now) (minute now)
  /\ minute_of_day (hour now) (minute now) < minute_of_day eh em.

Definition timer_parameter (ts : TimerSettings) : Param.t :=
  {| Param.city := None; Param.job := None; Param.limit := None;
     Param.concurrent := None; Param.timer := Some ts |}.

(** A window over midnight, from 22:00 to 02:00. *)
Definition late_timer : TimerSettings :=
  {| enable := true; begin_hour := Some 22; begin_minute := Some 0;
     end_hour := Some 2; end_minute := Some 0; interval := Some 60 |}.

(** An hour that no day has. *)
Definition wrong_timer : TimerSettings :=
  {| enable := true; begin_hour := Some 2; begin_minute := Some 0;
     end_hour := Some 24; end_minute := Some 0; interval := Some 60 |}.

(** An interval below zero. *)
Definition hasty_timer : TimerSettings :=
  {| enable := true; begin_hour := Some 2; begin_minute := Some 0;
     end_hour := Some 5; end_minute := Some 0; interval := Some (-1) |}.

(** An hour too large for a C [int]. *)
Definition huge_timer : TimerSettings :=
  {| enable := true; begin_hour := Some 2147483648; begin_minute := Some 0;
     end_hour := Some 5; end_minute := Some 0; interval := Some 60 |}.

(** An interval so far below zero that its seconds do not fit the clock
    of [time.sleep]. *)
Definition remote_timer : TimerSettings :=
  {| enable := true; begin_hour := Some 2; begin_minute := Some 0;
     end_hour := Some 5; end_minute := Some 0;
     interval := Some (-153722868) |}.

(** ** The web route that starts a crawl: [get_spider] of [server.py] *)

Module Server.

(** [request.form]: the submitted fields in order; a key may come more
    than once. *)
Definition Form : Type := list (string * string).

(** [request.form.getlist(key)]. *)
Fixpoint getlist (form : Form) (key : string) : list string :=
  match form with
  | [] => []
  | (k, v) :: rest =>
    if String.eqb k key then v :: getlist rest key else getlist rest key
  end.

(** [request.form.get(key)]: the first value of the key. *)
Definition get (form : Form) (key : string) : option string :=
  head (getlist form key).

(** [key in request.form]. *)
Definition has (form : Form) (key : string) : bool :=
  match getlist form key with
  | [] => false
  | _ :: _ => true
  end.

Section WithInt.

(** Python's [int] on a string. *)
Variable py_int : string -> result Z.

(** [int(request.form.get(key, fallback))] for an integer [fallback]. *)
Definition int_field (form : Form) (key : string) (fallback : Z) : result Z :=
  match get form key with
  | Some s => py_int s
  | None => Ok fallback
  end.

(** The dict handed to [spider_main.main] in a new thread, and title and
    message of the page sent back. *)
Definition get_spider (form : Form) : result (Param.t * (string * string)) :=
  let city_list := getlist form "city" in
  let job_list := getlist form "job" in
  limit_per_task ← py_int (default "999999" (get form "limit"));
  let use_concurrent := has form "multithread" in
  let enable_timer := has form "enable_timer" in
  bh ← int_field form "begin_hour" 2;
  bm ← int_field form "begin_minute" 0;
  eh ← int_field form "end_hour" 5;
  em ← int_field form "end_minute" 0;
  iv ← int_field form "interval" 60;
  let timer_settings :=
    {| enable := enable_timer; begin_hour := Some bh; begin_minute := Some bm;
       end_hour := Some eh; end_minute := Some em; interval := Some iv |} in
  let dict_parameter :=
    {| Param.city := Some city_list; Param.job := Some job_list;
       Param.limit := Some limit_per_task;
       Param.concurrent := Some use_concurrent;
       Param.timer := Some timer_settings |} in
  mret (dict_parameter,
        if enable_timer then ("定时任务已启动", "服务器将按时自动执行。")
        else ("爬虫任务已在后台执行", "请稍后查看结果。")).

End WithInt.

End Server.

(** [int] on a string of plain decimal digits, for the examples. *)
Fixpoint digits_value (acc : Z) (s : string) : result Z :=
  match s with
  | EmptyString => Ok acc
  | String a rest =>
    let n := Z.of_nat (Ascii.nat_of_ascii a) in
    if bool_decide (48 <= n <= 57) then digits_value (10 * acc + (n - 48)) rest
    else Raise ValueError
  end.

Definition sample_int (s : string) : result Z :=
  match s with
  | EmptyString => Raise ValueError
  | _ => digits_value 0 s
  end.

(** A form with a limit and one job, no city and no box ticked. *)
Definition sample_form : Server.Form := [("job", "Java"); ("limit", "5")].

(** The serial sample batch after the first record of its first task. *)
Definition sample_after_put : Batch.sys :=
  match sample_produce ("北京", "Java") with
  | r :: todo =>
    {| Batch.launcher := Batch.SerialTask todo [("上海", "Java")];
       Batch.processes := []; Batch.q := [QRecord r] |}
  | [] => Batch.init false sample_tasks
  end.

(** * Properties *)

(** ** The paging loop *)

Section SpiderFacts.

Import Job51Spider.

Variable py_repr : pyval -> string.
Variable self : Job51Spider.t.

Local Abbreviation step := (Job51Spider.step py_repr self).
Local Abbreviation steps := (Job51Spider.steps py_repr self).

Lemma steps_S n : steps (S n) = step (steps n).
Proof. reflexivity. Qed.

Lemma start_counted : counted self (start self).
Proof.
  unfold start, counted. destruct (driver_get _ _); split; simpl; lia.
Qed.

Lemma loop_head_counted s : counted self s -> counted self (loop_head self s).
Proof.
  unfold counted. intros [Hc Hl]. unfold loop_head.
  repeat (case_bool_decide || case_match); split; simpl; auto.
Qed.

Lemma for_jobs_counted rest s : counted self s -> counted self (for_jobs py_repr self rest s).
Proof.
  unfold counted. intros [Hc Hl]. unfold for_jobs.
  repeat (case_bool_decide || case_match); split; simpl; auto;
    rewrite ?length_app; simpl; lia.
Qed.

Lemma step_counted s : counted self s -> counted self (step s).
Proof.
  intros H. unfold Job51Spider.step. destruct (pc s); auto using loop_head_counted, for_jobs_counted.
Qed.

Lemma steps_counted n : counted self (steps n).
Proof.
  induction n as [|n IH]; [apply start_counted|].
  rewrite steps_S. by apply step_counted.
Qed.


(** *** Termination *)

Lemma chars_nonempty s : s <> EmptyString -> Py.chars s <> [].
Proof. destruct s; simpl; congruence. Qed.

Lemma iter_truthy jobs entries :
  Py.truthy jobs = true -> Py.iter jobs = Ok entries -> entries <> [].
Proof.
  destruct jobs as [| |z|s|l|d]; simpl; intros Ht Hi; try discriminate;
    injection Hi as <-.
  - apply chars_nonempty. intros ->. discriminate.
  - destruct l; congruence.
  - destruct d; simpl; congruence.
Qed.

Lemma finished_remaining s : finished s = true <-> remaining self s = 0%nat.
Proof.
  unfold finished, remaining. destruct (pc s) as [|[|? ?]| |]; simpl;
    try (split; [discriminate | lia]); try done.
  destruct (Z.to_nat _); split; (discriminate || lia).
Qed.

Lemma loop_head_remaining s :
  pc s = LoopHead -> (remaining self (loop_head self s) < remaining self s)%nat.
Proof.
  intros Hpc. unfold loop_head.
  assert (Hs : remaining self s = (3 * Z.to_nat (limit self - count s) + 1)%nat)
    by (unfold remaining; by rewrite Hpc).
  rewrite Hs.
  case_bool_decide as Hlim; [unfold remaining; simpl; lia|].
  destruct (request_json _ _ _ _) as [data|]; [|unfold remaining; simpl; lia].
  destruct (Py.contains _ _) as [[|]|]; try (unfold remaining; simpl; lia).
  - destruct (Py.getitem _ _); unfold remaining; simpl; lia.
  - destruct (items_of data) as [jobs|]; [|unfold remaining; simpl; lia].
    destruct (Py.truthy jobs) eqn:Ht; simpl; [|unfold remaining; simpl; lia].
    destruct (Py.iter jobs) as [entries|] eqn:Hi; [|unfold remaining; simpl; lia].
    pose proof (iter_truthy _ _ Ht Hi) as Hne.
    destruct entries as [|e entries]; [done|].
    unfold remaining; simpl.
    destruct (Z.to_nat (limit self - count s)) eqn:Hd; lia.
Qed.

Lemma for_jobs_remaining rest s :
  pc s = ForJobs rest ->
  (remaining self (for_jobs py_repr self rest s) < remaining self s)%nat.
Proof.
  intros Hpc. unfold for_jobs, remaining at 2. rewrite Hpc.
  destruct rest as [|entry rest]; [unfold remaining; simpl; lia|].
  case_bool_decide as Hlim.
  - unfold remaining; simpl.
    replace (Z.to_nat (limit self - count s)) with 0%nat by lia. lia.
  - destruct (make_result _ _ _) as [r|].
    + unfold remaining; simpl.
      replace (Z.to_nat (limit self - count s))
        with (S (Z.to_nat (limit self - (count s + 1)))) by lia.
      destruct rest; [lia|].
      destruct (Z.to_nat (limit self - (count s + 1))); lia.
    + unfold remaining; simpl.
      destruct (Z.to_nat (limit self - count s)) eqn:Hd; lia.
Qed.

Lemma step_remaining s :
  finished s = false -> (remaining self (step s) < remaining self s)%nat.
Proof.
  unfold finished, Job51Spider.step. destruct (pc s) eqn:Hpc; try discriminate; intros _.
  - by apply loop_head_remaining.
  - by apply for_jobs_remaining.
Qed.

Lemma step_finished s : finished s = true -> step s = s.
Proof. unfold finished, Job51Spider.step. by destruct (pc s). Qed.

Lemma steps_remaining n :
  (remaining self (steps n) <= remaining self (start self) - n)%nat.
Proof.
  induction n as [|n IH]; [unfold Job51Spider.steps; simpl; lia|].
  rewrite steps_S. destruct (finished (steps n)) eqn:Hf.
  - rewrite step_finished by done. apply finished_remaining in Hf. lia.
  - pose proof (step_remaining _ Hf). lia.
Qed.

Lemma start_remaining : (remaining self (start self) < enough self)%nat.
Proof.
  unfold start, enough, remaining.
  destruct (driver_get _ _); simpl; lia.
Qed.

Lemma steps_enough : finished (steps (enough self)) = true.
Proof.
  apply finished_remaining.
  pose proof (steps_remaining (enough self)). pose proof start_remaining. lia.
Qed.

Lemma run_enough :
  exists r s, run py_repr self (enough self) = Some (r, s)
              /\ s = steps (enough self).
Proof.
  pose proof steps_enough as Hf. unfold run, finished in *.
  destruct (pc (steps (enough self))); try discriminate; eauto.
Qed.


(** *** Each enqueue *)

Lemma step_enqueue s :
  queue (step s) = queue s /\ count (step s) = count s
  \/ exists r, queue (step s) = queue s ++ [r]
       /\ count s < limit self /\ count (step s) = count s + 1.
Proof.
  unfold Job51Spider.step. destruct (pc s) as [|rest| |]; auto.
  - left. unfold loop_head.
    repeat (case_bool_decide || case_match); auto.
  - unfold for_jobs. destruct rest as [|entry rest]; auto.
    case_bool_decide as Hlim; auto.
    destruct (make_result _ _ _) as [r|]; auto.
    right. exists r. simpl. repeat split; lia.
Qed.

(** *** The value returned *)

Lemma step_returned_over s : returned_over s -> returned_over (step s).
Proof.
  unfold returned_over, Job51Spider.step. intros H v.
  destruct (pc s) as [|rest|v'|e] eqn:Hpc; [| |rewrite Hpc; by apply H..].
  - unfold loop_head.
    repeat (case_bool_decide || case_match); simpl; intros [= <-];
      (split; [done|]); rewrite last_snoc; simpl; eauto.
  - unfold for_jobs.
    repeat (case_bool_decide || case_match); simpl; discriminate.
Qed.

Lemma steps_returned_over n : returned_over (steps n).
Proof.
  induction n as [|n IH].
  - unfold Job51Spider.steps, start, returned_over. simpl.
    destruct (driver_get _ _); simpl; discriminate.
  - rewrite steps_S. by apply step_returned_over.
Qed.

(** *** The stop conditions, for any session *)

Lemma stopped_by_inv c e s :
  stopped_by c (goto (Returned "over") (say e s)) -> cause_of_event e = Some c.
Proof. intros [_ H]. simpl in H. by rewrite last_snoc in H. Qed.

(** A pass from the top of the loop returns only for one of the three
    causes, the earlier ones having failed. *)
Lemma loop_head_stopped s c :
  stopped_by c (loop_head self s) ->
  match c with
  | LimitReached => limit self <= count s
  | FetchError =>
    count s < limit self
    /\ exists data,
         request_json self (job self) (page s) (city_code self) = Ok data
         /\ has_error data
  | Exhausted =>
    count s < limit self
    /\ exists data,
         request_json self (job self) (page s) (city_code self) = Ok data
         /\ ~ has_error data /\ zero_entries data
  end.
Proof.
  unfold loop_head. case_bool_decide as Hlim.
  { intros H%stopped_by_inv. by injection H as <-. }
  assert (Hlt : count s < limit self) by lia.
  destruct (request_json _ _ _ _) as [data|]; [|by intros [? _]].
  destruct (Py.contains "error" data) as [[|]|] eqn:Hc; [| |by intros [? _]].
  - destruct (Py.getitem data "error"); [|by intros [? _]].
    intros H%stopped_by_inv. injection H as <-. split; [done|]. by exists data.
  - destruct (items_of data) as [jobs|] eqn:Hjobs; [|by intros [? _]].
    destruct (Py.truthy jobs) eqn:Ht; simpl.
    + destruct (Py.iter jobs); by intros [? _].
    + intros H%stopped_by_inv. injection H as <-. split; [done|].
      exists data. split; [done|]. split; [|by exists jobs].
      unfold has_error. congruence.
Qed.

Lemma for_jobs_not_returned rest s v :
  pc s = ForJobs rest -> pc (for_jobs py_repr self rest s) <> Returned v.
Proof.
  intros Hpc. unfold for_jobs.
  repeat (case_bool_decide || case_match); simpl; congruence.
Qed.

(** *** The stop conditions, for a well-behaved session *)

Hypothesis Hwb : well_behaved (driver self).

Lemma fetch_well_formed s :
  exists data, request_json self (job self) (page s) (city_code self) = Ok data
               /\ well_formed data.
Proof. destruct Hwb as [_ H]. apply H. Qed.

Lemma well_formed_error data :
  well_formed data -> has_error data -> exists msg, Py.getitem data "error" = Ok msg.
Proof.
  intros [Hd _]. unfold has_error. destruct data; try done. simpl.
  intros [= Hb]. apply bool_decide_eq_true in Hb as [msg ->]. eauto.
Qed.

Lemma well_formed_no_error data :
  well_formed data -> ~ has_error data -> Py.contains "error" data = Ok false.
Proof.
  intros [Hd _]. unfold has_error. destruct data; try done. simpl.
  destruct (bool_decide _); [intros []; done | done].
Qed.

Lemma make_result_dict d : exists r, make_result py_repr self (PDict d) = Ok r.
Proof. unfold make_result. simpl. eauto. Qed.

Lemma stopped_by_say c e s :
  cause_of_event e = Some c -> stopped_by c (goto (Returned "over") (say e s)).
Proof.
  intros He. split; [done|]. simpl. by rewrite last_snoc.
Qed.

(** What one pass from the top of the loop does, by the three conditions
    in their order. *)
Lemma loop_head_cases s data :
  request_json self (job self) (page s) (city_code self) = Ok data ->
  well_formed data ->
  let s' := loop_head self s in
  (limit self <= count s -> stopped_by LimitReached s')
  /\ (count s < limit self -> has_error data -> stopped_by FetchError s')
  /\ (count s < limit self -> ~ has_error data -> zero_entries data ->
      stopped_by Exhausted s')
  /\ (count s < limit self -> ~ has_error data -> ~ zero_entries data ->
      exists entry rest, s' = goto (ForJobs (entry :: rest)) s
                         /\ Forall is_dict (entry :: rest)).
Proof.
  intros Hreq Hwf. unfold loop_head. rewrite Hreq.
  split; [|split; [|split]].
  - intros Hlim. rewrite bool_decide_eq_true_2 by done. by apply stopped_by_say.
  - intros Hlim Herr. rewrite bool_decide_eq_false_2 by lia.
    destruct (well_formed_error _ Hwf Herr) as [msg Hmsg].
    rewrite Herr, Hmsg. by apply stopped_by_say.
  - intros Hlim Herr [jobs [Hjobs Hfalsy]]. rewrite bool_decide_eq_false_2 by lia.
    rewrite (well_formed_no_error _ Hwf Herr), Hjobs, Hfalsy. simpl.
    by apply stopped_by_say.
  - intros Hlim Herr Hzero. rewrite bool_decide_eq_false_2 by lia.
    rewrite (well_formed_no_error _ Hwf Herr).
    destruct Hwf as [_ [Hwf | [jobs [Hjobs Hwf]]]]; [done|].
    rewrite Hjobs. destruct Hwf as [Hfalsy | [entries [-> Hdicts]]].
    + destruct Hzero. by exists jobs.
    + destruct entries as [|entry rest]; [destruct Hzero; by exists (PList [])|].
      simpl. eauto.
Qed.

Lemma step_sound s : sound s -> sound (step s).
Proof.
  unfold sound at 1, Job51Spider.step. destruct (pc s) as [|rest|v|e] eqn:Hpc; try done.
  - intros _. destruct (fetch_well_formed s) as [data [Hreq Hwf]].
    destruct (loop_head_cases s data Hreq Hwf) as (H1 & H2 & H3 & H4).
    destruct (decide (limit self <= count s)) as [Hlim|Hlim].
    { unfold sound. destruct (H1 Hlim) as [Hp Hl]. rewrite Hp.
      exists LimitReached. by split. }
    assert (Hlt : count s < limit self) by lia.
    destruct (Py.contains "error" data) as [[|]|] eqn:Hc.
    { unfold sound. destruct (H2 Hlt Hc) as [Hp Hl]. rewrite Hp.
      exists FetchError. by split. }
    2:{ destruct Hwf as [Hd _]. destruct data; done. }
    assert (Hne : ~ has_error data) by (unfold has_error; congruence).
    destruct (items_of data) as [jobs|] eqn:Hjobs.
    2:{ destruct Hwf as [_ [?|[jobs [? _]]]]; [done | congruence]. }
    destruct (Py.truthy jobs) eqn:Ht.
    + destruct (H4 Hlt Hne) as (entry & rest & -> & Hd).
      { intros [jobs' [Hj Hf]]. congruence. }
      done.
    + destruct (H3 Hlt Hne) as [Hp Hl]; [by exists jobs|].
      unfold sound. rewrite Hp. exists Exhausted. by split.
  - intros Hd. unfold for_jobs. destruct rest as [|entry rest]; [done|].
    case_bool_decide; [done|].
    apply Forall_cons in Hd as [He Hd]. by destruct entry.
  - intros H. unfold sound. by rewrite Hpc.
Qed.

Lemma start_sound : sound (start self).
Proof. unfold start. destruct Hwb as [-> _]. done. Qed.

Lemma steps_sound n : sound (steps n).
Proof.
  induction n as [|n IH]; [apply start_sound|].
  rewrite steps_S. by apply step_sound.
Qed.

Lemma for_jobs_not_finished rest s :
  Forall is_dict rest -> finished (for_jobs py_repr self rest s) = false.
Proof.
  intros Hd. unfold for_jobs. destruct rest as [|entry rest]; [done|].
  case_bool_decide; [done|].
  apply Forall_cons in Hd as [He Hd]. by destruct entry.
Qed.

Lemma stopped_by_finished c s : stopped_by c s -> finished s = true.
Proof. intros [Hp _]. unfold finished. by rewrite Hp. Qed.

Lemma zero_entries_dec data :
  well_formed data -> ~ has_error data -> zero_entries data \/ ~ zero_entries data.
Proof.
  intros [_ [Herr | [jobs [Hjobs Hwf]]]] Hne; [done|].
  destruct (Py.truthy jobs) eqn:Ht.
  - right. intros [jobs' [Hj Hf]]. congruence.
  - left. by exists jobs.
Qed.

Lemma has_error_dec data : has_error data \/ ~ has_error data.
Proof.
  unfold has_error. destruct (Py.contains "error" data) as [[|]|]; auto;
    right; congruence.
Qed.

Lemma loop_head_finished_iff s data :
  request_json self (job self) (page s) (city_code self) = Ok data ->
  well_formed data ->
  finished (loop_head self s) = true
  <-> limit self <= count s \/ has_error data \/ zero_entries data.
Proof.
  intros Hreq Hwf.
  destruct (loop_head_cases s data Hreq Hwf) as (H1 & H2 & H3 & H4).
  destruct (decide (limit self <= count s)) as [Hlim|Hlim].
  { split; [auto|]. intros _. eapply stopped_by_finished; eauto. }
  assert (Hlt : count s < limit self) by lia.
  destruct (has_error_dec data) as [Herr|Herr].
  { split; [auto|]. intros _. eapply stopped_by_finished; eauto. }
  destruct (zero_entries_dec data Hwf Herr) as [Hz|Hz].
  { split; [auto|]. intros _. eapply stopped_by_finished; eauto. }
  destruct (H4 Hlt Herr Hz) as (entry & rest & -> & _).
  split; [discriminate|]. intros [?|[?|?]]; done.
Qed.

End SpiderFacts.

(** C1. For a task with a limit of at least 0, the counter of
    [Job51Spider.run] equals the number of records put on the queue and
    is at most the limit in every state of the run; each enqueue happens
    with the counter below the limit and raises it by one, so that a page
    with more entries than the remaining budget is cut; and the run ends
    with at most [limit] records on the queue. *)
Theorem run_count_within_limit (py_repr : pyval -> string) (self : Job51Spider.t) :
  0 <= Job51Spider.limit self ->
  (forall n,
     let s := Job51Spider.steps py_repr self n in
     Job51Spider.count s = Z.of_nat (length (Job51Spider.queue s))
     /\ Job51Spider.count s <= Job51Spider.limit self)
  /\ (forall n,
        let s := Job51Spider.steps py_repr self n in
        let s' := Job51Spider.steps py_repr self (S n) in
        Job51Spider.queue s' = Job51Spider.queue s
        \/ exists r, Job51Spider.queue s' = Job51Spider.queue s ++ [r]
             /\ Job51Spider.count s < Job51Spider.limit self
             /\ Job51Spider.count s' = Job51Spider.count s + 1)
  /\ exists r s,
       Job51Spider.run py_repr self (Job51Spider.enough self) = Some (r, s)
       /\ Z.of_nat (length (Job51Spider.queue s)) <= Job51Spider.limit self.
Proof.
  intros Hlimit.
  assert (Hinv : forall n,
    let s := Job51Spider.steps py_repr self n in
    Job51Spider.count s = Z.of_nat (length (Job51Spider.queue s))
    /\ Job51Spider.count s <= Job51Spider.limit self).
  { intros n. destruct (steps_counted py_repr self n) as [Hc Hl]. split; [done|lia]. }
  split; [done|]. split.
  - intros n. cbv zeta. rewrite steps_S.
    destruct (step_enqueue py_repr self (Job51Spider.steps py_repr self n))
      as [[Hq _]|[r (Hq & Hlt & Hc)]]; [by left|right; eauto].
  - destruct (run_enough py_repr self) as (r & s & Hrun & ->).
    eexists r, _. split; [exact Hrun|].
    destruct (Hinv (Job51Spider.enough self)). lia.
Qed.

Lemma run_count_within_limit_witness :
  0 <= Job51Spider.limit (sample_spider sample_driver 4)
  /\ exists r s,
       Job51Spider.run sample_repr (sample_spider sample_driver 4)
         (Job51Spider.enough (sample_spider sample_driver 4)) = Some (r, s)
       /\ Z.of_nat (length (Job51Spider.queue s)) <= 4.
Proof.
  assert (H : 0 <= Job51Spider.limit (sample_spider sample_driver 4))
    by (simpl; lia).
  split; [exact H|].
  exact (proj2 (proj2 (run_count_within_limit sample_repr
                         (sample_spider sample_driver 4) H))).
Defined.

(** C2, as the code has it.  A pass of the loop of [Job51Spider.run]
    makes [run] return only for one of three conditions, tested in this
    order: the counter has reached the limit; the response has an [error]
    key; the page has no entries.  The line printed names the first one
    that holds, and nothing inside the [for] loop makes [run] return.
    With a session whose fetches return well-formed responses a pass ends
    the loop exactly when one of the three conditions holds, no exception
    is raised, and the run always ends.  For any session the loop is left
    in one of two ways only: by such a return from the top of the loop,
    or by an exception, which leaves [run] as well. *)
Theorem loop_stops_at_first_condition
    (py_repr : pyval -> string) (self : Job51Spider.t) :
  (forall n,
     let s := Job51Spider.steps py_repr self n in
     let s' := Job51Spider.step py_repr self s in
     (Job51Spider.pc s = Job51Spider.LoopHead ->
      forall c, stopped_by c s' ->
        match c with
        | LimitReached => Job51Spider.limit self <= Job51Spider.count s
        | FetchError =>
          Job51Spider.count s < Job51Spider.limit self
          /\ exists data,
               Job51Spider.request_json self (Job51Spider.job self)
                 (Job51Spider.page s) (Job51Spider.city_code self) = Ok data
               /\ has_error data
        | Exhausted =>
          Job51Spider.count s < Job51Spider.limit self
          /\ exists data,
               Job51Spider.request_json self (Job51Spider.job self)
                 (Job51Spider.page s) (Job51Spider.city_code self) = Ok data
               /\ ~ has_error data /\ zero_entries data
        end)
     /\ (forall rest v,
           Job51Spider.pc s = Job51Spider.ForJobs rest ->
           Job51Spider.pc s' <> Job51Spider.Returned v))
  /\ (well_behaved (Job51Spider.driver self) ->
      (forall n,
         let s := Job51Spider.steps py_repr self n in
         let s' := Job51Spider.step py_repr self s in
         match Job51Spider.pc s with
         | Job51Spider.LoopHead =>
           exists data,
             Job51Spider.request_json self (Job51Spider.job self)
               (Job51Spider.page s) (Job51Spider.city_code self) = Ok data
             /\ (Job51Spider.limit self <= Job51Spider.count s ->
                 stopped_by LimitReached s')
             /\ (Job51Spider.count s < Job51Spider.limit self ->
                 has_error data -> stopped_by FetchError s')
             /\ (Job51Spider.count s < Job51Spider.limit self ->
                 ~ has_error data -> zero_entries data ->
                 stopped_by Exhausted s')
             /\ (Job51Spider.finished s' = true
                 <-> Job51Spider.limit self <= Job51Spider.count s
                     \/ has_error data \/ zero_entries data)
         | Job51Spider.ForJobs rest => Job51Spider.finished s' = false
         | Job51Spider.Returned v => exists c, stopped_by c s
         | Job51Spider.Raised e => False
         end)
      /\ Job51Spider.finished
           (Job51Spider.steps py_repr self (Job51Spider.enough self)) = true)
  /\ (forall n,
        let s := Job51Spider.steps py_repr self n in
        let s' := Job51Spider.step py_repr self s in
        Job51Spider.finished s = false -> Job51Spider.finished s' = true ->
        (Job51Spider.pc s = Job51Spider.LoopHead /\ exists c, stopped_by c s')
        \/ exists e, Job51Spider.pc s' = Job51Spider.Raised e).
Proof.
  split.
  { intros n s s'. subst s'. unfold Job51Spider.step. split.
    - intros ->. apply loop_head_stopped.
    - intros rest v Hpc. rewrite Hpc. by apply for_jobs_not_returned. }
  split.
  2:{ intros n s s' Hs Hs'. unfold Job51Spider.finished in Hs, Hs'.
      destruct (Job51Spider.pc s') as [| |v|e] eqn:Hpc'; try discriminate;
        [|right; by exists e].
      left. pose proof (steps_returned_over py_repr self (S n)) as Hret.
      rewrite steps_S in Hret. fold s in Hret. fold s' in Hret.
      destruct (Hret v Hpc') as [-> Hc]. split.
      - destruct (Job51Spider.pc s) as [|rest| |] eqn:Hpc; try discriminate;
          [done|].
        subst s'. unfold Job51Spider.step in Hpc'. rewrite Hpc in Hpc'.
        by apply for_jobs_not_returned in Hpc'.
      - destruct Hc as [c Hc]. exists c. by split. }
  intros Hwb. split; [|apply steps_enough].
  intros n s s'. pose proof (steps_sound py_repr self Hwb n) as Hs.
  fold s in Hs. unfold sound in Hs. subst s'. unfold Job51Spider.step.
  destruct (Job51Spider.pc s) as [|rest|v|e] eqn:Hpc; [| |done..].
  - destruct (fetch_well_formed self Hwb s) as [data [Hreq Hwf]].
    exists data. split; [done|].
    destruct (loop_head_cases self s data Hreq Hwf) as (H1 & H2 & H3 & _).
    repeat (split; [done|]).
    by apply loop_head_finished_iff.
  - by apply for_jobs_not_finished.
Qed.

Lemma sample_driver_well_behaved : well_behaved sample_driver.
Proof.
  split; [done|]. intros keyword page_num jobArea. simpl.
  case_bool_decide; eexists; (split; [reflexivity|]); (split; [done|]);
    right; eexists; (split; [reflexivity|]); [right | left; done].
  eexists. split; [reflexivity|]. repeat constructor.
Qed.

Lemma loop_stops_at_first_condition_witness :
  well_behaved (Job51Spider.driver (sample_spider sample_driver 4))
  /\ Job51Spider.finished
       (Job51Spider.steps sample_repr (sample_spider sample_driver 4)
          (Job51Spider.enough (sample_spider sample_driver 4))) = true.
Proof.
  split; [exact sample_driver_well_behaved|].
  exact (proj2 (proj1 (proj2 (loop_stops_at_first_condition sample_repr
                                (sample_spider sample_driver 4)))
                  sample_driver_well_behaved)).
Defined.

(** C2, as the claim has it, fails: with a page whose second entry is
    not an object the loop is left in the [for] loop by an
    [AttributeError], after one record, while the counter is below the
    limit and the response has no [error] key and two entries. *)
Lemma loop_left_by_exception :
  ~ (forall (py_repr : pyval -> string) (self : Job51Spider.t) (n : nat),
       let s := Job51Spider.steps py_repr self n in
       Job51Spider.finished s = false ->
       Job51Spider.finished (Job51Spider.step py_repr self s) = true ->
       Job51Spider.limit self <= Job51Spider.count s
       \/ exists data,
            Job51Spider.request_json self (Job51Spider.job self)
              (Job51Spider.page s) (Job51Spider.city_code self) = Ok data
            /\ (has_error data \/ zero_entries data)).
Proof.
  intros H.
  destruct (H sample_repr (sample_spider malformed_driver 5) 2%nat
              eq_refl eq_refl) as [Hlim|(data & Hreq & [Herr|Hzero])].
  - vm_compute in Hlim. by apply Hlim.
  - injection Hreq as <-. discriminate Herr.
  - injection Hreq as <-. destruct Hzero as (jobs & Hjobs & Hfalse).
    injection Hjobs as <-. discriminate Hfalse.
Qed.

(** C7, as the code has it.  Whenever [Job51Spider.run] returns, it
    returns the one string ["over"]; which of the three conditions ended
    the loop shows only in the last line printed.  The run always ends. *)
Theorem run_returns_over (py_repr : pyval -> string) (self : Job51Spider.t) :
  (forall fuel v s,
     Job51Spider.run py_repr self fuel = Some (Ok v, s) ->
     v = "over"
     /\ exists c, last (Job51Spider.log s) ≫= cause_of_event = Some c)
  /\ exists r s,
       Job51Spider.run py_repr self (Job51Spider.enough self) = Some (r, s).
Proof.
  split.
  - intros fuel v s. unfold Job51Spider.run.
    pose proof (steps_returned_over py_repr self fuel) as H.
    destruct (Job51Spider.pc (Job51Spider.steps py_repr self fuel)) eqn:Hpc;
      try discriminate.
    intros [= <- <-]. by apply H.
  - destruct (run_enough py_repr self) as (r & s & Hrun & _). eauto.
Qed.

Lemma run_returns_over_witness :
  Job51Spider.run sample_repr (sample_spider failing_driver 5) 1
  = Some (Ok "over",
          Job51Spider.steps sample_repr (sample_spider failing_driver 5) 1)
  /\ "over" = "over".
Proof.
  assert (H : Job51Spider.run sample_repr (sample_spider failing_driver 5) 1
              = Some (Ok "over",
                      Job51Spider.steps sample_repr
                        (sample_spider failing_driver 5) 1))
    by reflexivity.
  split; [exact H|].
  exact (proj1 (proj1 (run_returns_over sample_repr
                         (sample_spider failing_driver 5)) _ _ _ H)).
Defined.

(** C7, as the claim has it, fails: no reading of the returned value
    tells the cause.  A run ended by a fetch error and a run ended by the
    limit return the same value. *)
Lemma run_status_not_distinguished :
  ~ exists decode : string -> Cause,
      forall py_repr self fuel v s c,
        Job51Spider.run py_repr self fuel = Some (Ok v, s) ->
        stopped_by c s -> decode v = c.
Proof.
  intros [decode H].
  assert (H1 : decode "over" = FetchError).
  { eapply (H sample_repr (sample_spider failing_driver 5) 1%nat); [reflexivity|].
    split; reflexivity. }
  assert (H2 : decode "over" = LimitReached).
  { eapply (H sample_repr (sample_spider sample_driver 0) 1%nat); [reflexivity|].
    split; reflexivity. }
  congruence.
Qed.

(** ** The record of one posting *)

(** C8, as the code has it.  For an entry that is a dict, [provider] and
    [keyword] are set, and each of [title], [place], [salary],
    [experience], [education], [companytype] and [description] is the
    remote field as it came, or [None] when the entry has no such key.
    [industry] is not copied: it is a string made of two remote fields,
    joined by [" / "] when both are strings. *)
Theorem make_result_fields
    (py_repr : pyval -> string) (self : Job51Spider.t)
    (d : list (string * pyval)) :
  exists r,
    Job51Spider.make_result py_repr self (PDict d) = Ok r
    /\ provider r = "前程无忧网"
    /\ keyword r = Job51Spider.job self
    /\ title r = default PNone (Py.assoc "jobName" d)
    /\ place r = default PNone (Py.assoc "jobAreaString" d)
    /\ salary r = default PNone (Py.assoc "provideSalaryString" d)
    /\ experience r = default PNone (Py.assoc "workYearString" d)
    /\ education r = default PNone (Py.assoc "degreeString" d)
    /\ companytype r = default PNone (Py.assoc "companyTypeString" d)
    /\ description r = default PNone (Py.assoc "jobDescribe" d)
    /\ forall a b,
         Py.assoc "companyIndustryType1Str" d = Some (PStr a) ->
         Py.assoc "companyIndustryType2Str" d = Some (PStr b) ->
         industry r = a +:+ " / " +:+ b.
Proof.
  eexists. split; [reflexivity|]. simpl.
  repeat (split; [reflexivity|]).
  intros a b -> ->. reflexivity.
Qed.

Lemma make_result_fields_witness :
  exists r,
    Job51Spider.make_result sample_repr (sample_spider sample_driver 4)
      (sample_entry "a") = Ok r
    /\ title r = PStr "a" /\ place r = PNone
    /\ industry r = "互联网 / 软件".
Proof.
  destruct (make_result_fields sample_repr (sample_spider sample_driver 4)
              [("jobName", PStr "a");
               ("companyIndustryType1Str", PStr "互联网");
               ("companyIndustryType2Str", PStr "软件")])
    as (r & Hr & _ & _ & Ht & Hp & _ & _ & _ & _ & _ & Hi).
  exists r. split; [exact Hr|]. split; [exact Ht|]. split; [exact Hp|].
  exact (Hi "互联网" "软件" eq_refl eq_refl).
Defined.

(** C8, as the claim has it, fails at the entry with no field at all: its
    industry is the text ["None / None"], not an empty value. *)
Lemma make_result_industry_not_empty :
  exists r,
    Job51Spider.make_result sample_repr (sample_spider sample_driver 4)
      (PDict []) = Ok r
    /\ title r = PNone /\ description r = PNone
    /\ industry r = "None / None"
    /\ industry r <> EmptyString.
Proof.
  eexists. split; [reflexivity|]. simpl. repeat split. discriminate.
Qed.

(** ** City codes *)

Section CityCodeFacts.

Variable optionxform : string -> string.
Variable interpolate : gmap string string -> string -> result string.
Variable config : ConfigParser.t.

Local Abbreviation get_code := (get_city_code optionxform interpolate config).

Lemma get_city_code_known city_name code :
  plain_codes config ->
  city_table config !! optionxform city_name = Some code ->
  get_code city_name = Ok (code, []).
Proof.
  intros Hplain Hlook.
  assert (Hc : Py.substring_of "%" code = false)
    by exact (map_Forall_lookup_1 _ _ _ _ Hplain Hlook).
  unfold get_city_code, ConfigParser.get, ConfigParser.unify_values.
  unfold city_table in Hlook.
  destruct (ConfigParser.sections config !! "citycode") as [sectiondict|];
    [|by rewrite lookup_empty in Hlook].
  simpl. rewrite Hlook. unfold ConfigParser.before_get. by rewrite Hc.
Qed.

Lemma get_city_code_unknown city_name :
  city_table config !! optionxform city_name = None ->
  get_code city_name = Ok ("000000", [city_warning city_name]).
Proof.
  intros Hlook.
  unfold get_city_code, ConfigParser.get, ConfigParser.unify_values.
  unfold city_table in Hlook.
  destruct (ConfigParser.sections config !! "citycode") as [sectiondict|].
  - simpl. by rewrite Hlook.
  - reflexivity.
Qed.

End CityCodeFacts.

(** C5.  With a table whose codes hold no percent sign, [get_city_code]
    never raises: a city of the table gets its code and no warning, any
    other city gets ["000000"] and one warning, and so does each of any
    number of repeated calls with the same unknown city. *)
Theorem get_city_code_never_raises
    (optionxform : string -> string)
    (interpolate : gmap string string -> string -> result string)
    (config : ConfigParser.t) (city_name : string) :
  plain_codes config ->
  match city_table config !! optionxform city_name with
  | Some code =>
    get_city_code optionxform interpolate config city_name = Ok (code, [])
  | None =>
    forall n,
      map (get_city_code optionxform interpolate config) (replicate n city_name)
      = replicate n (Ok ("000000", [city_warning city_name]))
  end
  /\ is_ok (get_city_code optionxform interpolate config city_name) = true.
Proof.
  intros Hplain.
  destruct (city_table config !! optionxform city_name) as [code|] eqn:Hlook.
  - by rewrite (get_city_code_known _ _ _ _ _ Hplain Hlook).
  - rewrite (get_city_code_unknown _ interpolate _ _ Hlook). split; [|done].
    intros n. induction n as [|n IH]; [done|].
    simpl. rewrite IH. f_equal. by apply get_city_code_unknown.
Qed.

Lemma sample_config_plain : plain_codes sample_config.
Proof. apply (bool_decide_unpack _). by vm_compute. Qed.

Lemma get_city_code_never_raises_witness :
  plain_codes sample_config
  /\ get_city_code id no_interpolation sample_config "北京" = Ok ("010000", [])
  /\ map (get_city_code id no_interpolation sample_config)
       (replicate 3 "火星")
     = replicate 3 (Ok ("000000", [city_warning "火星"])).
Proof.
  split; [exact sample_config_plain|]. split.
  - exact (proj1 (get_city_code_never_raises id no_interpolation sample_config
                    "北京" sample_config_plain)).
  - exact (proj1 (get_city_code_never_raises id no_interpolation sample_config
                    "火星" sample_config_plain) 3%nat).
Defined.

(** ** The writer process *)

Section WriterFacts.

Import WriterProcess.

Variable arrivals : nat -> Arrival.

Local Abbreviation wsteps := (WriterProcess.steps arrivals).

Lemma get_cases a :
  (exists delay r, a = Some (delay, QRecord r) /\ delay < 60
                   /\ queue_get 60 a = Ok (QRecord r))
  \/ (exists delay, a = Some (delay, QStop) /\ delay < 60
                    /\ queue_get 60 a = Ok QStop)
  \/ ((a = None \/ exists delay item, a = Some (delay, item) /\ 60 <= delay)
      /\ queue_get 60 a = Raise QueueEmpty).
Proof.
  destruct a as [[delay item]|]; simpl; [|right; right; auto].
  case_bool_decide as Hd.
  - destruct item as [r|]; [left|right; left]; eauto.
  - right; right. split; [|done]. right. exists delay, item. split; [done|lia].
Qed.

Lemma popped_record k r :
  record_at arrivals k r -> popped arrivals (S k) = popped arrivals k ++ [r].
Proof.
  intros [delay [Ha Hd]]. simpl. unfold yields_record. rewrite Ha. simpl.
  by rewrite bool_decide_eq_true_2.
Qed.

Lemma only_records_S n r :
  only_records arrivals n -> record_at arrivals n r -> only_records arrivals (S n).
Proof.
  intros Hn Hr j Hj. destruct (decide (j = n)) as [->|Hne]; [eauto|].
  apply Hn. lia.
Qed.

Lemma steps_drained n : drained arrivals n (wsteps n).
Proof.
  induction n as [|n IH].
  - unfold drained. simpl. repeat split. intros j Hj. lia.
  - change (wsteps (S n)) with (WriterProcess.step arrivals (wsteps n)).
    unfold drained in IH. unfold WriterProcess.step.
    destruct (status (wsteps n)) as [|how] eqn:Hst.
    + destruct IH as (Hg & Hrec & Hart). rewrite Hg.
      destruct (get_cases (arrivals n))
        as [(delay & r & Ha & Hd & ->)|[(delay & Ha & Hd & ->)|[Ht ->]]];
        unfold drained; cbn [status gets artifact].
      * assert (Hr : record_at arrivals n r) by (by exists delay).
        split; [done|]. split; [by eapply only_records_S|].
        rewrite Hart, (popped_record _ _ Hr), map_app. done.
      * exists n. split; [lia|]. split; [done|]. split; [|done].
        left. split; [|done]. by exists delay.
      * exists n. split; [lia|]. split; [done|]. split; [|done]. by right.
    + unfold drained. rewrite Hst.
      destruct IH as (k & Hk & H). exists k. split; [lia|done].
Qed.

Lemma steps_exited_stays n m how :
  status (wsteps n) = Exited how -> (n <= m)%nat -> status (wsteps m) = Exited how.
Proof.
  intros Hst Hle. induction Hle as [|m Hle IH]; [done|].
  change (wsteps (S m)) with (WriterProcess.step arrivals (wsteps m)).
  unfold WriterProcess.step. by rewrite IH.
Qed.

Lemma ends_exits k :
  sentinel_at arrivals k \/ timeout_at arrivals k ->
  exists how, status (wsteps (S k)) = Exited how.
Proof.
  intros Hend. pose proof (steps_drained k) as Hd. unfold drained in Hd.
  destruct (status (wsteps k)) as [|how] eqn:Hst.
  - destruct Hd as (Hg & _ & _).
    change (wsteps (S k)) with (WriterProcess.step arrivals (wsteps k)).
    unfold WriterProcess.step. rewrite Hst, Hg.
    destruct Hend as [[delay [Ha Hlt]]|[Ha|(delay & item & Ha & Hge)]];
      rewrite Ha; simpl.
    + rewrite bool_decide_eq_true_2 by done. eauto.
    + eauto.
    + rewrite bool_decide_eq_false_2 by lia. eauto.
  - exists how. eapply steps_exited_stays; [done|lia].
Qed.

Lemma record_not_end k r :
  record_at arrivals k r -> ~ (sentinel_at arrivals k \/ timeout_at arrivals k).
Proof.
  intros [delay [Ha Hd]] [[d [Hs _]]|[Hn|(d & item & Ht & Hge)]];
    rewrite Ha in *; simplify_eq; lia.
Qed.

Lemma steps_draining k :
  only_records arrivals k -> status (wsteps k) = Draining /\ gets (wsteps k) = k.
Proof.
  intros Hrec. pose proof (steps_drained k) as Hd. unfold drained in Hd.
  destruct (status (wsteps k)) as [|how].
  - by destruct Hd as (Hg & _ & _).
  - destruct Hd as (j & Hj & _ & Hend & _). destruct (Hrec j Hj) as [r Hr].
    destruct (record_not_end j r Hr). tauto.
Qed.

Lemma step_record k r :
  only_records arrivals k -> record_at arrivals k r ->
  wsteps (S k)
  = {| status := Draining; gets := S k;
       artifact := artifact (wsteps k) ++ [row_of r] |}.
Proof.
  intros Hrec [delay [Ha Hd]]. destruct (steps_draining k Hrec) as [Hst Hg].
  change (wsteps (S k)) with (WriterProcess.step arrivals (wsteps k)).
  unfold WriterProcess.step. rewrite Hst, Hg, Ha. simpl.
  by rewrite bool_decide_eq_true_2.
Qed.

Lemma on_disk_prefix sync s : on_disk sync s `prefix_of` artifact s.
Proof. unfold on_disk. destruct (status s); [apply prefix_take | done]. Qed.

End WriterFacts.

(** C4, as the code has it.  The drain loop of [WriterProcess.run] ends
    if and only if some [get] meets the sentinel or waits 60 seconds in
    vain.  When it ends it has raised nothing, every earlier [get] handed
    over a record, and the artifact is the header followed by the ten
    cells of those records in order.  Each record popped is handed to the
    csv writer in the pass that pops it.  The file is not flushed in the
    loop: while the loop runs the disk holds some of the rows handed over,
    from the first one on, and it holds all of them once the loop is
    left. *)
Theorem writer_drains_until_stop_or_timeout
    (arrivals : nat -> WriterProcess.Arrival) :
  let header :=
    [PStr "provider"; PStr "keyword"; PStr "title"; PStr "place";
     PStr "salary"; PStr "experience"; PStr "education"; PStr "companytype";
     PStr "industry"; PStr "description"] in
  let row := fun r : JobRecord =>
    [PStr (provider r); PStr (keyword r); title r; place r; salary r;
     experience r; education r; companytype r; PStr (industry r);
     description r] in
  ((exists fuel, is_Some (WriterProcess.run arrivals fuel))
   <-> exists k, sentinel_at arrivals k \/ timeout_at arrivals k)
  /\ (forall fuel how rows,
        WriterProcess.run arrivals fuel = Some (how, rows) ->
        exists k, (k < fuel)%nat /\ only_records arrivals k
          /\ (sentinel_at arrivals k /\ how = Ok WriterProcess.StopSignal
              \/ timeout_at arrivals k /\ how = Ok WriterProcess.IdleTimeout)
          /\ rows = header :: map row (WriterProcess.popped arrivals k))
  /\ (forall k r,
        only_records arrivals k -> record_at arrivals k r ->
        WriterProcess.status (WriterProcess.steps arrivals (S k))
        = WriterProcess.Draining
        /\ WriterProcess.artifact (WriterProcess.steps arrivals (S k))
           = WriterProcess.artifact (WriterProcess.steps arrivals k) ++ [row r])
  /\ (forall sync n,
        let s := WriterProcess.steps arrivals n in
        WriterProcess.on_disk sync s `prefix_of` WriterProcess.artifact s
        /\ (forall how, WriterProcess.status s = WriterProcess.Exited how ->
            WriterProcess.on_disk sync s = WriterProcess.artifact s)).
Proof.
  intros header row.
  assert (Hrun : forall fuel how rows,
    WriterProcess.run arrivals fuel = Some (how, rows) ->
    exists k, (k < fuel)%nat /\ only_records arrivals k
      /\ (sentinel_at arrivals k /\ how = Ok WriterProcess.StopSignal
          \/ timeout_at arrivals k /\ how = Ok WriterProcess.IdleTimeout)
      /\ rows = header :: map row (WriterProcess.popped arrivals k)).
  { intros fuel how rows. unfold WriterProcess.run.
    pose proof (steps_drained arrivals fuel) as Hd. unfold drained in Hd.
    destruct (WriterProcess.status (WriterProcess.steps arrivals fuel));
      [discriminate|].
    intros [= <- <-]. exact Hd. }
  split; [|split; [exact Hrun|split]].
  - split.
    + intros [fuel [[how rows] Hr]].
      destruct (Hrun _ _ _ Hr) as (k & _ & _ & [[H _]|[H _]] & _); eauto.
    + intros [k Hk]. destruct (ends_exits arrivals k Hk) as [how Hst].
      exists (S k). unfold WriterProcess.run. rewrite Hst. eauto.
  - intros k r Hrec Hr. by rewrite (step_record arrivals k r Hrec Hr).
  - intros sync n s. split; [apply on_disk_prefix|].
    intros how Hst. unfold WriterProcess.on_disk. by rewrite Hst.
Qed.

Lemma writer_drains_until_stop_or_timeout_witness :
  WriterProcess.run sample_arrivals 3
  = Some (Ok WriterProcess.StopSignal,
          [[PStr "provider"; PStr "keyword"; PStr "title"; PStr "place";
            PStr "salary"; PStr "experience"; PStr "education";
            PStr "companytype"; PStr "industry"; PStr "description"];
           [PStr "前程无忧网"; PStr "Java"; PStr "a"; PNone; PNone; PNone;
            PNone; PNone; PStr "None / None"; PNone];
           [PStr "前程无忧网"; PStr "Java"; PStr "b"; PNone; PNone; PNone;
            PNone; PNone; PStr "None / None"; PNone]])
  /\ (exists k, (k < 3)%nat /\ only_records sample_arrivals k
               /\ sentinel_at sample_arrivals k)
  /\ WriterProcess.artifact (WriterProcess.steps sample_arrivals 2)
     = WriterProcess.artifact (WriterProcess.steps sample_arrivals 1)
       ++ [[PStr "前程无忧网"; PStr "Java"; PStr "b"; PNone; PNone; PNone;
            PNone; PNone; PStr "None / None"; PNone]].
Proof.
  pose proof (writer_drains_until_stop_or_timeout sample_arrivals)
    as (_ & Hrun & Hput & _).
  assert (H : WriterProcess.run sample_arrivals 3
              = Some (Ok WriterProcess.StopSignal,
                      [WriterProcess.header_row;
                       WriterProcess.row_of (sample_record "a");
                       WriterProcess.row_of (sample_record "b")]))
    by reflexivity.
  split; [exact H|]. split.
  - destruct (Hrun _ _ _ H) as (k & Hk & Hrec & [[Hs _]|[_ Hhow]] & _);
      [|discriminate].
    exists k. split; [exact Hk|]. split; [exact Hrec | exact Hs].
  - apply (Hput 1%nat (sample_record "b")).
    + intros j Hj. assert (j = 0%nat) as -> by lia.
      exists (sample_record "a"), 1. split; [reflexivity | lia].
    + exists 1. split; [reflexivity | lia].
Defined.

(** C4, as the claim has it, fails for the file on the disk: with a file
    object that has not emptied its buffer yet, the row of a record is not
    there right after the pass that pops it. *)
Lemma writer_row_not_on_disk_at_once :
  ~ (forall (sync : list (list pyval) -> nat)
            (arrivals : nat -> WriterProcess.Arrival) (k : nat) (r : JobRecord),
       only_records arrivals k -> record_at arrivals k r ->
       [PStr (provider r); PStr (keyword r); title r; place r; salary r;
        experience r; education r; companytype r; PStr (industry r);
        description r]
       ∈ WriterProcess.on_disk sync (WriterProcess.steps arrivals (S k))).
Proof.
  intros H.
  specialize (H unflushed sample_arrivals 0%nat (sample_record "a")).
  assert (Hnone : only_records sample_arrivals 0) by (intros j Hj; lia).
  assert (Hrec : record_at sample_arrivals 0 (sample_record "a"))
    by (exists 1; split; [reflexivity | lia]).
  specialize (H Hnone Hrec). vm_compute in H. by apply elem_of_nil in H.
Qed.

(** ** The timer loop *)

Lemma dt_le_replace now h m :
  valid_time now -> 0 <= m < 60 ->
  dt_le {| year := year now; month := month now; day := day now;
           hour := h; minute := m; second := 0; microsecond := 0 |} now
  = bool_decide (minute_of_day h m <= minute_of_day (hour now) (minute now)).
Proof.
  intros (Hh & Hm & Hs & Hu) Hmm. unfold dt_le, fields, minute_of_day.
  cbn -[Z.compare Z.mul Z.add].
  rewrite !Z.compare_refl.
  destruct (Z.compare_spec h (hour now));
    destruct (Z.compare_spec m (minute now));
    destruct (Z.compare_spec 0 (second now));
    destruct (Z.compare_spec 0 (microsecond now));
    case_bool_decide; (done || lia).
Qed.

Lemma dt_lt_replace now h m :
  valid_time now -> 0 <= m < 60 ->
  dt_lt now {| year := year now; month := month now; day := day now;
               hour := h; minute := m; second := 0; microsecond := 0 |}
  = bool_decide (minute_of_day (hour now) (minute now) < minute_of_day h m).
Proof.
  intros (Hh & Hm & Hs & Hu) Hmm. unfold dt_lt, fields, minute_of_day.
  cbn -[Z.compare Z.mul Z.add].
  rewrite !Z.compare_refl.
  destruct (Z.compare_spec (hour now) h);
    destruct (Z.compare_spec (minute now) m);
    destruct (Z.compare_spec (second now) 0);
    destruct (Z.compare_spec (microsecond now) 0);
    case_bool_decide; (done || lia).
Qed.

Lemma replace_time_valid now h m :
  0 <= h < 24 -> 0 <= m < 60 ->
  replace_time now h m
  = Ok {| year := year now; month := month now; day := day now;
          hour := h; minute := m; second := 0; microsecond := 0 |}.
Proof.
  intros Hh Hm. unfold replace_time, fits_int.
  rewrite bool_decide_eq_true_2 by lia. by rewrite bool_decide_eq_true_2.
Qed.

Lemma time_sleep_ok seconds :
  0 <= seconds <= SLEEP_MAX -> time_sleep seconds = Ok [Sleep seconds].
Proof.
  intros Hs. unfold time_sleep.
  rewrite bool_decide_eq_true_2 by lia. by rewrite bool_decide_eq_true_2 by lia.
Qed.

Section TimerFacts.

Variables bh bm eh em interval_minutes : Z.
Hypothesis Hbh : 0 <= bh < 24.
Hypothesis Hbm : 0 <= bm < 60.
Hypothesis Heh : 0 <= eh < 24.
Hypothesis Hem : 0 <= em < 60.
Hypothesis Hinterval : 0 <= interval_minutes * 60 <= SLEEP_MAX.

Lemma tick_expected now :
  valid_time now ->
  tick bh bm eh em interval_minutes now
  = (expected_pass bh bm eh em interval_minutes now, Ok tt).
Proof.
  intros Hnow. unfold tick, in_window, expected_pass.
  rewrite !replace_time_valid by done. simpl.
  rewrite dt_le_replace, dt_lt_replace by done.
  rewrite !time_sleep_ok by (unfold SLEEP_MAX in *; lia).
  repeat case_bool_decide; simpl; (done || lia).
Qed.

Lemma timer_loop_expected clock k n :
  (forall j, valid_time (clock j)) ->
  timer_loop bh bm eh em interval_minutes clock k n
  = (flat_map (fun j => expected_pass bh bm eh em interval_minutes (clock j))
       (seq k n), Ok tt).
Proof.
  intros Hclock. revert k. induction n as [|n IH]; intros k; [done|].
  simpl. rewrite tick_expected by done. by rewrite IH.
Qed.

End TimerFacts.

(** C6.  With the timer enabled, a valid window and an interval that
    [time.sleep] takes (from 0 to [SLEEP_MAX] seconds), a pass of the loop
    of [main] at time [now] runs a batch if and only if the minute of
    [now] lies in the window, the end excluded and both ends taken on the
    day of [now]; it then sleeps [interval_minutes] minutes.  Outside the
    window it runs nothing and sleeps 60 seconds.  The passes follow one
    another in this way.  For the window from 02:00 to 05:00 a pass at
    01:59 runs no batch and a pass at 02:00 runs one. *)
Theorem timer_gates_batches
    (dict_parameter : Param.t) (bh bm eh em interval_minutes : Z)
    (clock : nat -> datetime) :
  Param.timer dict_parameter
  = Some {| enable := true; begin_hour := Some bh; begin_minute := Some bm;
            end_hour := Some eh; end_minute := Some em;
            interval := Some interval_minutes |} ->
  0 <= bh < 24 -> 0 <= bm < 60 -> 0 <= eh < 24 -> 0 <= em < 60 ->
  0 <= interval_minutes * 60 <= SLEEP_MAX ->
  (forall k, valid_time (clock k)) ->
  (forall now, valid_time now ->
     tick bh bm eh em interval_minutes now
     = if bool_decide
            (minute_of_day bh bm <= minute_of_day (hour now) (minute now)
             /\ minute_of_day (hour now) (minute now) < minute_of_day eh em)
       then ([RunBatch; Sleep (interval_minutes * 60)], Ok tt)
       else ([Sleep 60], Ok tt))
  /\ (forall ticks,
        main dict_parameter clock ticks
        = (flat_map
             (fun k => expected_pass bh bm eh em interval_minutes (clock k))
             (seq 0 ticks), Ok tt))
  /\ (forall now, valid_time now -> hour now = 1 -> minute now = 59 ->
        tick 2 0 5 0 60 now = ([Sleep 60], Ok tt))
  /\ (forall now, valid_time now -> hour now = 2 -> minute now = 0 ->
        tick 2 0 5 0 60 now = ([RunBatch; Sleep 3600], Ok tt)).
Proof.
  intros Htimer Hbh Hbm Heh Hem Hiv Hclock. repeat split.
  - intros now Hnow. rewrite tick_expected by done. unfold expected_pass.
    by case_bool_decide.
  - intros ticks. unfold main. rewrite Htimer. simpl.
    by apply timer_loop_expected.
  - intros now Hnow Hh Hm.
    rewrite tick_expected by (done || unfold SLEEP_MAX; lia).
    unfold expected_pass, minute_of_day. rewrite Hh, Hm.
    by rewrite bool_decide_eq_false_2 by lia.
  - intros now Hnow Hh Hm.
    rewrite tick_expected by (done || unfold SLEEP_MAX; lia).
    unfold expected_pass, minute_of_day. rewrite Hh, Hm.
    by rewrite bool_decide_eq_true_2 by lia.
Qed.

Lemma night_clock_valid k : valid_time (night_clock k).
Proof.
  destruct k as [|[|k]]; unfold valid_time; simpl; lia.
Qed.

Lemma timer_gates_batches_witness :
  main night_parameter night_clock 3
  = ([Sleep 60; RunBatch; Sleep 3600; RunBatch; Sleep 3600], Ok tt).
Proof.
  exact (proj1 (proj2 (timer_gates_batches night_parameter 2 0 5 0 60 night_clock
                         eq_refl ltac:(lia) ltac:(lia) ltac:(lia) ltac:(lia)
                         ltac:(unfold SLEEP_MAX; lia) night_clock_valid))
           3%nat).
Defined.

(** ** The HTML preview *)

(** C9.  When the artifact is missing, or is there without a single row,
    [generate_html_from_csv] raises nothing, prints the warning and writes
    a page with one table: its head is the row of the ten known column
    names, in the order of the header of the artifact, and its body has no
    row. *)
Theorem generate_html_without_artifact
    (open_csv : string -> result (list (list string))) (csv_file : string) :
  open_csv csv_file = Raise FileNotFoundError \/ open_csv csv_file = Ok [] ->
  exists lines,
    generate_html_from_csv open_csv csv_file
    = Ok (lines, ["警告: CSV文件 '" +:+ csv_file
                  +:+ "' 为空或不存在，将生成一个空的HTML表格。"])
    /\ (exists before after,
          lines = before
                  ++ ["<table>"; "<thead>"; "<tr>";
                      "<th>provider</th>"; "<th>keyword</th>";
                      "<th>title</th>"; "<th>place</th>"; "<th>salary</th>";
                      "<th>experience</th>"; "<th>education</th>";
                      "<th>companytype</th>"; "<th>industry</th>";
                      "<th>description</th>";
                      "</tr>"; "</thead>"; "<tbody>"; "</tbody>"; "</table>"]
                  ++ after
          /\ last before = Some "<h1>招聘数据展示</h1>"
          /\ head after = Some "</body>"
          /\ last after = Some "</html>")
    /\ lines = html_content WriterProcess.fieldnames []
    /\ count_lines "<table>" lines = 1%nat
    /\ count_prefix "<th>" lines = 10%nat
    /\ count_prefix "<td>" lines = 0%nat
    /\ count_lines "<tr>" lines = 1%nat.
Proof.
  intros Hfile. eexists. split.
  - unfold generate_html_from_csv, read_table.
    destruct Hfile as [-> | ->]; reflexivity.
  - split.
    + exists (take 17 html_prologue), (drop 2 html_epilogue).
      repeat split; by vm_compute.
    + repeat split; by vm_compute.
Qed.

Lemma generate_html_without_artifact_witness :
  exists lines,
    generate_html_from_csv no_file "data/qcwy.csv"
    = Ok (lines, ["警告: CSV文件 'data/qcwy.csv' 为空或不存在，将生成一个空的HTML表格。"])
    /\ count_prefix "<th>" lines = 10%nat
    /\ count_lines "<tr>" lines = 1%nat.
Proof.
  destruct (generate_html_without_artifact no_file "data/qcwy.csv"
              (or_introl eq_refl))
    as (lines & Hgen & _ & _ & _ & Hth & _ & Htr).
  exists lines. split; [exact Hgen|]. split; [exact Hth | exact Htr].
Defined.

(** ** The task list *)

(** C10.  The city list of a batch is the built-in default list when the
    [city] entry is absent and also when it is an empty list, and the same
    holds of the job list; so a caller that passes an empty city list gets
    a task for each of the 33 default cities and each job. *)
Theorem empty_lists_fall_back (dict_parameter : Param.t) :
  (Param.city dict_parameter = None \/ Param.city dict_parameter = Some [] ->
   city_list dict_parameter = DEFAULT_CITIES)
  /\ (Param.job dict_parameter = None \/ Param.job dict_parameter = Some [] ->
      job_list dict_parameter = DEFAULT_JOBS)
  /\ (Param.city dict_parameter = Some [] ->
      tasks dict_parameter = tasks_of DEFAULT_CITIES (job_list dict_parameter)
      /\ length (tasks dict_parameter)
         = (33 * length (job_list dict_parameter))%nat
      /\ tasks dict_parameter <> [])
  /\ (Param.city dict_parameter = Some [] -> Param.job dict_parameter = Some [] ->
      length (tasks dict_parameter) = (33 * 49)%nat).
Proof.
  assert (Hjobs : job_list dict_parameter <> []).
  { unfold job_list, get_or. by destruct (Param.job dict_parameter) as [[|]|]. }
  split; [|split; [|split]].
  - unfold city_list. by intros [-> | ->].
  - unfold job_list. by intros [-> | ->].
  - intros Hc. unfold tasks, city_list. rewrite Hc. simpl get_or.
    split; [done|]. split.
    + unfold tasks_of, DEFAULT_CITIES. simpl. rewrite !length_app, !length_map.
      simpl. lia.
    + destruct (job_list dict_parameter); done.
  - intros Hc Hj. unfold tasks, city_list, job_list. rewrite Hc, Hj. done.
Qed.

Lemma empty_lists_fall_back_witness :
  city_list empty_lists_parameter = DEFAULT_CITIES
  /\ length (tasks empty_lists_parameter) = (33 * 49)%nat.
Proof.
  split.
  - exact (proj1 (empty_lists_fall_back empty_lists_parameter)
             (or_intror eq_refl)).
  - exact (proj2 (proj2 (proj2 (empty_lists_fall_back empty_lists_parameter)))
             eq_refl eq_refl).
Defined.

(** ** One batch and its sentinel *)

Section BatchFacts.

Import Batch.

Variable produce : Task -> list JobRecord.
Variable concurrent : bool.
Variable tasks : list Task.

Local Abbreviation Inv := (batch_inv produce concurrent tasks).
Local Abbreviation bstep := (Batch.step produce).

Lemma init_inv : Inv (init concurrent tasks).
Proof.
  exists []. unfold init. destruct concurrent; simpl; repeat split; auto.
Qed.

Lemma workers_pending_app ps w :
  workers_pending (ps ++ [w]) = workers_pending ps ++ todo_of w.
Proof.
  unfold workers_pending. rewrite map_app, concat_app. simpl.
  by rewrite app_nil_r.
Qed.

Lemma workers_pending_put ps i r todo :
  ps !! i = Some (Running (r :: todo)) ->
  workers_pending ps ≡ₚ r :: workers_pending (<[i := Running todo]> ps).
Proof.
  revert i. induction ps as [|w ps IH]; intros [|i] H; try done.
  - injection H as ->. done.
  - simpl in H. unfold workers_pending in *. simpl.
    rewrite (IH i H). by rewrite Permutation_middle.
Qed.

Lemma workers_pending_exit ps i :
  ps !! i = Some (Running []) ->
  workers_pending (<[i := Exited]> ps) = workers_pending ps.
Proof.
  revert i. induction ps as [|w ps IH]; intros [|i] H; try done.
  - injection H as ->. done.
  - simpl in H. unfold workers_pending in *. simpl. by rewrite (IH i H).
Qed.


Lemma all_exited_lookup ps i w :
  all_exited ps -> ps !! i = Some w -> w = Exited.
Proof. intros H Hl. by eapply (Forall_lookup_1 _ _ _ _ H Hl). Qed.

Local Ltac sys_simpl :=
  cbn [launcher processes q launcher_pending] in *.

Lemma step_inv s s' : Inv s -> bstep s s' -> Inv s'.
Proof.
  intros (recs & Hq & Hperm & Hser & Hla) Hstep.
  inversion Hstep; subst; sys_simpl.
  - (* a process is started *)
    destruct Hla as [Hc Hlen]. exists recs; sys_simpl. split; [done|]. split; [|split].
    + rewrite workers_pending_app. simpl.
      rewrite <- Hperm. unfold all_records. simpl. by rewrite <- !app_assoc.
    + intros Hf. congruence.
    + split; [done|]. rewrite length_app. simpl in Hlen |- *. lia.
  - (* all are started *)
    destruct Hla as [Hc Hlen]. exists recs; sys_simpl. split; [done|]. split; [|split].
    + by rewrite <- Hperm.
    + intros Hf. congruence.
    + split; [done|]. split; [simpl in Hlen; lia|]. intros j Hj. lia.
  - (* one join *)
    destruct Hla as (Hc & Hlen & Hex). exists recs; sys_simpl. repeat (split; [done|]).
    intros j Hj Hjl. destruct (decide (j = i)) as [->|Hne]; [done|].
    apply Hex; lia.
  - (* the last join *)
    destruct Hla as (Hc & Hlen & Hex). exists recs; sys_simpl. repeat (split; [done|]).
    split; [|done]. apply Forall_lookup_2. intros j w Hw.
    assert (Hj : (j < length ps)%nat) by (eapply lookup_lt_Some; eauto).
    assert (Hi : (length ps <= i)%nat) by (by apply lookup_ge_None).
    rewrite Hex in Hw by lia. congruence.
  - (* a producer puts a record *)
    assert (Hc : concurrent = true).
    { destruct concurrent; [done|]. destruct (Hser eq_refl) as [-> _]. done. }
    assert (Hnf : match la with Stopping | Finished => False | _ => True end).
    { destruct la; try done; destruct Hla as [Hex _];
        by pose proof (all_exited_lookup _ _ _ Hex H). }
    exists (recs ++ [r]); sys_simpl. split; [|split; [|split]].
    + rewrite Hq, map_app. simpl. destruct la; try done;
        by rewrite ?app_nil_r.
    + rewrite <- Hperm, (workers_pending_put _ _ _ _ H).
      rewrite <- !app_assoc. simpl. by rewrite Permutation_middle.
    + intros Hf. congruence.
    + destruct la; try done.
      * by rewrite length_insert.
      * destruct Hla as (_ & Hlen & Hex). rewrite length_insert.
        repeat (split; [done|]). intros j Hj Hjl.
        destruct (decide (j = i)) as [->|Hne].
        -- rewrite Hex in H by done. discriminate.
        -- rewrite list_lookup_insert_ne by done. by apply Hex.
  - (* a producer exits *)
    assert (Hc : concurrent = true).
    { destruct concurrent; [done|]. destruct (Hser eq_refl) as [-> _]. done. }
    exists recs; sys_simpl. split; [done|]. split; [|split].
    + by rewrite (workers_pending_exit _ _ H).
    + intros Hf. congruence.
    + destruct la; try done; rewrite ?length_insert; try done.
      * destruct Hla as (_ & Hlen & Hex).
        repeat (split; [done|]). intros j Hj Hjl.
        destruct (decide (j = i)) as [->|Hne].
        -- apply list_lookup_insert_eq. by eapply lookup_lt_Some.
        -- rewrite list_lookup_insert_ne by done. by apply Hex.
      * destruct Hla as [Hex Hl]. split; [|done].
        by pose proof (all_exited_lookup _ _ _ Hex H).
      * destruct Hla as [Hex Hl]. split; [|done].
        by pose proof (all_exited_lookup _ _ _ Hex H).
  - (* a serial task is called *)
    exists recs; sys_simpl. repeat split; try done.
    + apply Hser. done.
    + apply Hser. done.
  - (* the serial task puts a record *)
    destruct (Hser Hla) as [-> Hall]. exists (recs ++ [r]); sys_simpl.
    split; [by rewrite Hq, map_app, !app_nil_r|]. split; [|split; [|done]].
    + rewrite <- Hperm. simpl. rewrite <- !app_assoc. done.
    + intros _. split; [done|]. rewrite <- Hall, <- !app_assoc. done.
  - (* the serial task returns *)
    exists recs; sys_simpl. repeat split; try done; by apply Hser.
  - (* the serial loop is over *)
    destruct (Hser Hla) as [-> Hall]. exists recs; sys_simpl. repeat split; try done.
    + apply Forall_nil_2.
    + congruence.
  - (* the sentinel *)
    exists recs; sys_simpl. split; [by rewrite Hq, app_nil_r|]. done.
Qed.

Lemma reachable_inv s : reachable produce concurrent tasks s -> Inv s.
Proof.
  induction 1 as [|s s' _ IH Hstep]; [apply init_inv | by eapply step_inv].
Qed.




End BatchFacts.


(** Each producer of a batch stays within the limit of the batch. *)
Lemma producer_within_limit
    (py_repr : pyval -> string) (optionxform : string -> string)
    (interpolate : gmap string string -> string -> result string)
    (config : ConfigParser.t) (Chrome : Task -> result WebDriver)
    (limit : Z) (t : Task) :
  0 <= limit ->
  Z.of_nat (length (producer py_repr optionxform interpolate config Chrome
                      limit t)) <= limit.
Proof.
  intros Hlimit. unfold producer, run_single_task.
  destruct (Chrome _) as [process_driver|]; [|simpl; lia].
  destruct (get_city_code _ _ _ _) as [[city_code out]|]; [|simpl; lia].
  match goal with
  | |- context [Job51Spider.steps ?r ?sp ?n] =>
    destruct (steps_counted r sp n) as [Hc Hl]
  end.
  rewrite <- Hc. simpl in Hl. lia.
Qed.

(** A serial batch of one task with one record, run to its end. *)
Lemma tiny_final_reachable : Batch.reachable tiny_produce false tiny_tasks tiny_final.
Proof.
  eapply Batch.reach_step; [|apply (Batch.step_stop tiny_produce [] [QRecord (sample_record "a")])].
  eapply Batch.reach_step; [|apply Batch.step_serial_done].
  eapply Batch.reach_step; [|apply Batch.step_serial_return].
  eapply Batch.reach_step;
    [|apply (Batch.step_serial_put tiny_produce (sample_record "a") [] [] [] [])].
  eapply Batch.reach_step;
    [|apply (Batch.step_serial_call tiny_produce ("北京", "Java") [] [] [])].
  apply Batch.reach_init.
Qed.

(** A concurrent batch of two tasks, caught in the joins and at its end. *)
Lemma turn_state_reachable : Batch.reachable turn_produce true turn_tasks turn_state.
Proof.
  eapply Batch.reach_step;
    [|apply (Batch.step_started turn_produce
               [Batch.Running [sample_record "Java"]; Batch.Running []]
               [QRecord (sample_record "上海"); QRecord (sample_record "北京");
                QRecord (sample_record "Go")])].
  eapply Batch.reach_step;
    [|apply (Batch.step_worker_put turn_produce 1 (sample_record "Go") []
               (Batch.Spawning [])
               [Batch.Running [sample_record "Java"];
                Batch.Running [sample_record "Go"]]
               [QRecord (sample_record "上海"); QRecord (sample_record "北京")]);
      reflexivity].
  eapply Batch.reach_step;
    [|apply (Batch.step_worker_put turn_produce 0 (sample_record "北京")
               [sample_record "Java"] (Batch.Spawning [])
               [Batch.Running [sample_record "北京"; sample_record "Java"];
                Batch.Running [sample_record "Go"]]
               [QRecord (sample_record "上海")]);
      reflexivity].
  eapply Batch.reach_step;
    [|apply (Batch.step_worker_put turn_produce 1 (sample_record "上海")
               [sample_record "Go"] (Batch.Spawning [])
               [Batch.Running [sample_record "北京"; sample_record "Java"];
                Batch.Running [sample_record "上海"; sample_record "Go"]]
               []);
      reflexivity].
  eapply Batch.reach_step;
    [|apply (Batch.step_start turn_produce ("上海", "Go") []
               [Batch.Running [sample_record "北京"; sample_record "Java"]] [])].
  eapply Batch.reach_step;
    [|apply (Batch.step_start turn_produce ("北京", "Java") [("上海", "Go")] [] [])].
  apply Batch.reach_init.
Qed.



(** * Further properties *)

(** ** The paging loop, continued *)

Section SpiderMore.

Import Job51Spider.

Variable py_repr : pyval -> string.
Variable self : Job51Spider.t.

Local Abbreviation step := (Job51Spider.step py_repr self).
Local Abbreviation steps := (Job51Spider.steps py_repr self).

(** *** What every record carries *)

Lemma make_result_keyword entry r :
  make_result py_repr self entry = Ok r ->
  provider r = "前程无忧网" /\ keyword r = job self.
Proof.
  unfold make_result. destruct entry; simpl; try discriminate.
  by intros [= <-].
Qed.

Lemma step_keyword s :
  Forall (fun r => provider r = "前程无忧网" /\ keyword r = job self) (queue s) ->
  Forall (fun r => provider r = "前程无忧网" /\ keyword r = job self)
    (queue (step s)).
Proof.
  intros H. unfold Job51Spider.step. destruct (pc s) as [|rest| |]; try done.
  - unfold loop_head. repeat (case_bool_decide || case_match); done.
  - unfold for_jobs. destruct rest as [|entry rest]; [done|].
    case_bool_decide; [done|].
    destruct (make_result py_repr self entry) as [r|] eqn:Hr; [|done].
    simpl. apply Forall_app. split; [done|].
    apply Forall_singleton. by eapply make_result_keyword.
Qed.

(** *** The pages requested *)

Lemma start_paged : paged self (start self).
Proof. unfold start, paged. destruct (driver_get _ _); simpl; lia. Qed.

Lemma step_paged s : paged self s -> paged self (step s).
Proof.
  unfold paged at 1. intros [Hp Hpc]. unfold Job51Spider.step.
  destruct (pc s) as [|rest| |] eqn:Hs.
  - unfold loop_head. case_bool_decide as Hlim; [unfold paged; simpl; lia|].
    destruct (request_json _ _ _ _) as [data|]; [|unfold paged; simpl; lia].
    destruct (Py.contains _ _) as [[|]|]; try (unfold paged; simpl; lia).
    + destruct (Py.getitem _ _); unfold paged; simpl; lia.
    + destruct (items_of data) as [jobs|]; [|unfold paged; simpl; lia].
      destruct (Py.truthy jobs) eqn:Ht; simpl; [|unfold paged; simpl; lia].
      destruct (Py.iter jobs) as [entries|] eqn:Hi; [|unfold paged; simpl; lia].
      pose proof (iter_truthy _ _ Ht Hi). unfold paged; simpl.
      split; [lia|]. right. split; [done|lia].
  - unfold for_jobs. destruct rest as [|entry rest].
    + unfold paged; simpl. destruct Hpc as [?|[? _]]; [lia|done].
    + case_bool_decide as Hlim.
      * unfold paged; simpl. destruct Hpc as [?|[_ ?]]; lia.
      * destruct (make_result _ _ _); unfold paged; simpl; [|lia].
        split; [lia|]. left. lia.
  - unfold paged. by rewrite Hs.
  - unfold paged. by rewrite Hs.
Qed.

Lemma steps_paged n : paged self (steps n).
Proof.
  induction n as [|n IH]; [apply start_paged|].
  rewrite steps_S. by apply step_paged.
Qed.

(** *** The records put, page by page *)

Lemma iter_finished j s : finished s = true -> Nat.iter j step s = s.
Proof.
  intros Hf. induction j as [|j IH]; [done|].
  simpl. rewrite IH. by apply step_finished.
Qed.

Lemma iter_finished_le j n s :
  finished (Nat.iter j step s) = true -> (j <= n)%nat ->
  Nat.iter n step s = Nat.iter j step s.
Proof.
  intros Hf Hle. replace n with ((n - j) + j)%nat by lia.
  rewrite Nat.iter_add. by apply iter_finished.
Qed.

Lemma record_of_dict d :
  exists r, record_of py_repr self (PDict d) = Some r
            /\ make_result py_repr self (PDict d) = Ok r.
Proof. unfold record_of, make_result. simpl. eauto. Qed.

Lemma omap_take_cons n entry r rest :
  record_of py_repr self entry = Some r ->
  omap (record_of py_repr self) (take (S n) (entry :: rest))
  = r :: omap (record_of py_repr self) (take n rest).
Proof. intros H. simpl. by rewrite H. Qed.

(** The [for] loop over the entries of one page puts the records of as
    many entries as the limit still allows and goes to the next page. *)
Lemma for_jobs_run rest s :
  pc s = ForJobs rest -> Forall is_dict rest ->
  let m := Nat.min (length rest) (Z.to_nat (limit self - count s)) in
  exists j,
    let s' := Nat.iter j step s in
    pc s' = LoopHead /\ page s' = page s + 1
    /\ count s' = count s + Z.of_nat m
    /\ queue s' = queue s ++ omap (record_of py_repr self) (take m rest).
Proof.
  revert s. induction rest as [|entry rest IH]; intros s Hpc Hd m.
  - subst m. exists 1%nat. simpl. unfold Job51Spider.step. rewrite Hpc. simpl.
    repeat split; [lia|by rewrite app_nil_r].
  - apply Forall_cons in Hd as [He Hd].
    destruct (decide (limit self <= count s)) as [Hlim|Hlim].
    + exists 1%nat. simpl. unfold Job51Spider.step. rewrite Hpc. simpl.
      rewrite bool_decide_eq_true_2 by done. subst m.
      replace (Z.to_nat (limit self - count s)) with 0%nat by lia.
      rewrite Nat.min_0_r. simpl. repeat split; [lia|by rewrite app_nil_r].
    + destruct entry as [| | | | |d]; try done.
      destruct (record_of_dict d) as (r & Hrec & Hmake).
      set (s1 := goto (ForJobs rest) (put r s)).
      assert (Hstep : step s = s1).
      { unfold Job51Spider.step. rewrite Hpc. unfold for_jobs.
        rewrite bool_decide_eq_false_2 by done. by rewrite Hmake. }
      destruct (IH s1 eq_refl Hd) as (j & Hp1 & Hp2 & Hp3 & Hp4).
      exists (S j). rewrite Nat.iter_succ_r, Hstep.
      split; [done|]. split; [done|].
      assert (Hm : m = S (Nat.min (length rest)
                            (Z.to_nat (limit self - count s1)))).
      { subst m s1. simpl.
        replace (Z.to_nat (limit self - count s))
          with (S (Z.to_nat (limit self - (count s + 1)))) by lia.
        done. }
      rewrite Hm. split.
      * rewrite Hp3. subst s1. simpl. lia.
      * rewrite Hp4, (omap_take_cons _ _ _ _ Hrec). subst s1.
        cbn [queue goto put]. by rewrite <- app_assoc.
Qed.

Hypothesis Hwb : well_behaved (driver self).

(** The top of the loop against [page_entries]. *)
Lemma loop_head_page s :
  count s < limit self ->
  match page_entries self (page s) with
  | Some entries =>
    loop_head self s = goto (ForJobs entries) s
    /\ entries <> [] /\ Forall is_dict entries
  | None =>
    finished (loop_head self s) = true
    /\ queue (loop_head self s) = queue s
  end.
Proof.
  intros Hlt. destruct (fetch_well_formed self Hwb s) as [data [Hreq Hwf]].
  unfold page_entries, loop_head. rewrite Hreq.
  rewrite bool_decide_eq_false_2 by lia.
  destruct (Py.contains "error" data) as [[|]|] eqn:Hc.
  - destruct (well_formed_error _ Hwf Hc) as [msg ->]. done.
  - destruct Hwf as [_ [Herr | [jobs [Hjobs Hwf]]]];
      [unfold has_error in Herr; congruence|].
    rewrite Hjobs. destruct Hwf as [Hfalsy | [entries [-> Hdicts]]].
    + by rewrite Hfalsy.
    + destruct entries as [|entry rest]; done.
  - done.
Qed.

Lemma page_entries_nonempty p entries :
  page_entries self p = Some entries -> entries <> [].
Proof.
  unfold page_entries. repeat case_match; try discriminate.
  intros [= <-]. by eapply iter_truthy.
Qed.

Lemma take_available n k p :
  (n <= k)%nat -> take n (available self p k) = take n (available self p n).
Proof.
  revert k p. induction n as [|n IH]; intros k p Hle; [done|].
  destruct k as [|k]; [lia|]. simpl.
  destruct (page_entries self p) as [entries|] eqn:Hp; [|done].
  pose proof (page_entries_nonempty _ _ Hp) as Hne.
  rewrite !take_app. f_equal.
  destruct entries as [|e entries]; [done|]. simpl.
  set (m := (n - length entries)%nat).
  assert (Hm : (m <= n)%nat) by lia.
  rewrite <- (Nat.min_l m n Hm), <- !take_take.
  by rewrite (IH k (p + 1)) by lia.
Qed.

(** From the top of the loop [run] ends, having put the records of the
    next entries as far as the limit allows. *)
Lemma run_from_head d s :
  pc s = LoopHead -> Z.to_nat (limit self - count s) = d ->
  exists j,
    finished (Nat.iter j step s) = true
    /\ queue (Nat.iter j step s)
       = queue s ++ omap (record_of py_repr self)
                      (take d (available self (page s) d)).
Proof.
  revert s. induction (lt_wf d) as [d _ IH]. intros s Hpc Hd.
  destruct (decide (limit self <= count s)) as [Hlim|Hlim].
  { exists 1%nat. simpl. unfold Job51Spider.step, loop_head. rewrite Hpc.
    rewrite bool_decide_eq_true_2 by done. simpl.
    replace d with 0%nat by lia. by rewrite app_nil_r. }
  assert (Hlt : count s < limit self) by lia.
  destruct d as [|d]; [lia|].
  pose proof (loop_head_page s Hlt) as Hhead. simpl.
  destruct (page_entries self (page s)) as [entries|] eqn:Hp.
  - destruct Hhead as (Hstep & Hne & Hdicts).
    set (s1 := goto (ForJobs entries) s).
    destruct (for_jobs_run entries s1 eq_refl Hdicts) as (j1 & H1 & H2 & H3 & H4).
    set (s2 := Nat.iter j1 step s1) in *.
    set (m := Nat.min (length entries) (Z.to_nat (limit self - count s1))) in *.
    assert (Hmd : m = Nat.min (length entries) (S d)).
    { subst m s1. cbn [count goto]. by rewrite Hd. }
    assert (Hlen : (1 <= length entries)%nat).
    { destruct entries; [done|]. simpl. lia. }
    assert (Hm : (1 <= m <= S d)%nat) by lia.
    destruct (IH (S d - m)%nat ltac:(lia) s2 H1) as (j2 & Hf & Hq).
    { rewrite H3. subst s1. simpl. lia. }
    exists (j2 + (j1 + 1))%nat.
    rewrite !Nat.iter_add. simpl.
    assert (Hs : step s = s1) by (unfold Job51Spider.step; by rewrite Hpc).
    rewrite Hs. fold s2. split; [done|].
    rewrite Hq, H4, H2. subst s1. simpl. rewrite <- app_assoc. f_equal.
    rewrite <- omap_app. f_equal.
    rewrite take_app. f_equal.
    + rewrite Hmd. destruct (Nat.min_spec (length entries) (S d)) as [[? ->]|[? ->]];
        [by rewrite !take_ge by lia | done].
    + rewrite (take_available (S d - length entries) d) by lia.
      rewrite Hmd. destruct (Nat.min_spec (length entries) (S d)) as [[? ->]|[? ->]];
        [done|].
      replace (S d - S d)%nat with 0%nat by lia.
      replace (S d - length entries)%nat with 0%nat by lia. done.
  - destruct Hhead as [Hf Hq]. exists 1%nat. simpl.
    unfold Job51Spider.step. rewrite Hpc. split; [done|].
    by rewrite Hq, app_nil_r.
Qed.

Lemma run_queue :
  queue (steps (enough self))
  = omap (record_of py_repr self)
      (take (Z.to_nat (limit self)) (available self 1 (Z.to_nat (limit self)))).
Proof.
  destruct Hwb as [Hget _].
  assert (Hstart : start self
                   = {| pc := LoopHead; page := 1; count := 0; queue := [];
                        log := [] |}).
  { unfold start. by rewrite Hget. }
  destruct (run_from_head (Z.to_nat (limit self)) (start self)) as (j & Hf & Hq).
  { by rewrite Hstart. }
  { rewrite Hstart. simpl. f_equal. lia. }
  rewrite Hstart in Hq at 2 3. simpl in Hq. rewrite <- Hq.
  unfold Job51Spider.steps.
  destruct (Nat.le_ge_cases j (enough self)) as [Hle|Hge].
  - by rewrite (iter_finished_le j) by done.
  - symmetry. rewrite (iter_finished_le (enough self) j); [done| |done].
    apply steps_enough.
Qed.

End SpiderMore.

Lemma step_keyword_all
    (py_repr : pyval -> string) (self : Job51Spider.t) (n : nat) (r : JobRecord) :
  r ∈ Job51Spider.queue (Job51Spider.steps py_repr self n) ->
  provider r = "前程无忧网" /\ keyword r = Job51Spider.job self.
Proof.
  revert r. apply Forall_forall. induction n as [|n IH].
  - unfold Job51Spider.steps, Job51Spider.start. simpl.
    destruct (driver_get _ _); simpl; constructor.
  - rewrite steps_S. by apply step_keyword.
Qed.

(** X2.  Every record [Job51Spider.run] puts on the queue carries the
    provider name and, as keyword, the job the spider was built for,
    whatever the session answers. *)
Theorem run_records_carry_keyword
    (py_repr : pyval -> string) (self : Job51Spider.t) (n : nat) (r : JobRecord) :
  r ∈ Job51Spider.queue (Job51Spider.steps py_repr self n) ->
  provider r = "前程无忧网" /\ keyword r = Job51Spider.job self.
Proof. apply step_keyword_all. Qed.

Lemma run_records_carry_keyword_witness :
  exists r,
    r ∈ Job51Spider.queue
          (Job51Spider.steps sample_repr (sample_spider sample_driver 4) 3)
    /\ keyword r = "Java".
Proof.
  eexists. split.
  - vm_compute. apply list_elem_of_here.
  - refine (proj2 (run_records_carry_keyword sample_repr
                     (sample_spider sample_driver 4) 3 _ _)).
    vm_compute. apply list_elem_of_here.
Defined.

(** X3.  [Job51Spider.run] asks for the pages 1, 2, 3, ... and never for
    a page beyond the limit: whenever it is about to fetch, the page
    number is at least 1, at most one more than the number of records put
    so far, and at most the limit. *)
Theorem run_fetches_within_limit
    (py_repr : pyval -> string) (self : Job51Spider.t) (n : nat) :
  let s := Job51Spider.steps py_repr self n in
  Job51Spider.pc s = Job51Spider.LoopHead ->
  Job51Spider.count s < Job51Spider.limit self ->
  1 <= Job51Spider.page s
  /\ Job51Spider.page s <= Job51Spider.count s + 1
  /\ Job51Spider.page s <= Job51Spider.limit self.
Proof.
  intros s Hpc Hlt. destruct (steps_paged py_repr self n) as [Hp _].
  fold s in Hp. lia.
Qed.

Lemma run_fetches_within_limit_witness :
  Job51Spider.page (Job51Spider.steps sample_repr (sample_spider sample_driver 4) 5)
  <= 4.
Proof.
  exact (proj2 (proj2 (run_fetches_within_limit sample_repr
                         (sample_spider sample_driver 4) 5
                         eq_refl ltac:(vm_compute; reflexivity)))).
Defined.

(** X1.  With a session whose fetches return well-formed responses,
    [Job51Spider.run] puts exactly the records of the first [limit]
    entries the pages hold, in page order: all entries of pages 1, 2, ...
    up to the first page that carries an error or no entry when these are
    fewer than [limit], the first [limit] of them otherwise. *)
Theorem run_puts_first_entries
    (py_repr : pyval -> string) (self : Job51Spider.t) :
  well_behaved (Job51Spider.driver self) ->
  Job51Spider.queue
    (Job51Spider.steps py_repr self (Job51Spider.enough self))
  = omap (record_of py_repr self)
      (take (Z.to_nat (Job51Spider.limit self))
         (available self 1 (Z.to_nat (Job51Spider.limit self)))).
Proof. intros Hwb. by apply run_queue. Qed.

Lemma run_puts_first_entries_witness :
  length (Job51Spider.queue
            (Job51Spider.steps sample_repr (sample_spider sample_driver 4)
               (Job51Spider.enough (sample_spider sample_driver 4))))
  = 4%nat.
Proof.
  rewrite (run_puts_first_entries sample_repr (sample_spider sample_driver 4)
             sample_driver_well_behaved).
  reflexivity.
Defined.

(** ** One batch, continued *)

Section MergeFacts.

Context {A : Type}.
Implicit Types (ls : list (list A)) (out : list A).

Lemma merge_snoc ls out i l x :
  merge ls out -> ls !! i = Some l ->
  merge (<[i := l ++ [x]]> ls) (out ++ [x]).
Proof.
  intros Hm. revert i l. induction Hm as [ls Hnil|j y l' ls out Hj Hm IH];
    intros i l Hi.
  - assert (l = []) as -> by (by eapply (Forall_lookup_1 _ _ _ _ Hnil Hi)).
    simpl. apply (merge_take i x []).
    + apply list_lookup_insert_eq. by eapply lookup_lt_Some.
    + rewrite list_insert_insert_eq. apply merge_done.
      rewrite list_insert_id by done. done.
  - simpl. destruct (decide (i = j)) as [->|Hne].
    + rewrite Hj in Hi. injection Hi as <-.
      apply (merge_take j y (l' ++ [x])).
      * apply list_lookup_insert_eq. by eapply lookup_lt_Some.
      * rewrite list_insert_insert_eq.
        specialize (IH j l').
        rewrite list_insert_insert_eq in IH. apply IH.
        apply list_lookup_insert_eq. by eapply lookup_lt_Some.
    + apply (merge_take j y l').
      * by rewrite list_lookup_insert_ne.
      * rewrite list_insert_insert_ne by done. apply IH.
        by rewrite list_lookup_insert_ne.
Qed.

Lemma merge_new ls out : merge ls out -> merge (ls ++ [[]]) out.
Proof.
  induction 1 as [ls Hnil|j y l' ls out Hj Hm IH].
  - apply merge_done. apply Forall_app. split; [done|]. by constructor.
  - apply (merge_take j y l').
    + by apply lookup_app_l_Some.
    + rewrite insert_app_l by (by eapply lookup_lt_Some). done.
Qed.

End MergeFacts.

Lemma records_of_app qu1 qu2 :
  records_of (qu1 ++ qu2) = records_of qu1 ++ records_of qu2.
Proof.
  induction qu1 as [|[r|] qu1 IH]; simpl; [done| |done]. by rewrite IH.
Qed.

Lemma records_of_records recs : records_of (map QRecord recs) = recs.
Proof. induction recs as [|r recs IH]; simpl; [done|]. by rewrite IH. Qed.

Section FifoFacts.

Import Batch.

Variable produce : Task -> list JobRecord.
Variable tasks : list Task.

Local Abbreviation Inv := (batch_inv produce true tasks).
Local Abbreviation Fifo := (fifo_inv produce tasks).
Local Abbreviation bstep := (Batch.step produce).

Local Ltac sys_simpl :=
  cbn [launcher processes q launcher_pending] in *.

Lemma init_fifo : Fifo (init true tasks).
Proof.
  exists []. unfold init. sys_simpl. simpl. repeat split; try done.
  by apply merge_done.
Qed.

Lemma drop_cons_lookup {A} (l : list A) n x rest :
  drop n l = x :: rest -> l !! n = Some x /\ drop (S n) l = rest.
Proof.
  intros H. split.
  - rewrite <- (Nat.add_0_r n), <- lookup_drop, H. done.
  - replace (S n) with (n + 1)%nat by lia. by rewrite <- drop_drop, H.
Qed.

Lemma step_fifo s s' : Inv s -> Fifo s -> bstep s s' -> Fifo s'.
Proof.
  intros (recs & _ & _ & Hser & Hla) (dones & Hm & Hlen & Hps & Hl) Hstep.
  inversion Hstep; subst; sys_simpl; unfold fifo_inv; sys_simpl;
    try (by destruct Hla); try congruence.
  - (* a process is started *)
    destruct (drop_cons_lookup _ _ _ _ Hl) as [Ht Hrest].
    exists (dones ++ [[]]). split; [by apply merge_new|].
    split; [rewrite !length_app; simpl; lia|]. split.
    + intros i w Hw. apply lookup_app_Some in Hw as [Hw|[Hi Hw]].
      * destruct (Hps i w Hw) as (t0 & done & H1 & H2 & H3).
        exists t0, done. split; [done|]. split; [|done].
        by apply lookup_app_l_Some.
      * assert (i = length ps) as ->.
        { apply lookup_lt_Some in Hw. simpl in Hw. lia. }
        rewrite Nat.sub_diag in Hw. injection Hw as <-.
        exists t, []. split; [done|]. split; [|done].
        rewrite <- Hlen. by rewrite lookup_app_r, Nat.sub_diag.
    + rewrite length_app. simpl.
      by replace (length ps + 1)%nat with (S (length ps)) by lia.
  - (* all are started *)
    exists dones. repeat (split; [done|]). destruct Hla as [_ Hla].
    simpl in Hla. lia.
  - (* one join *)
    by exists dones.
  - (* the last join *)
    by exists dones.
  - (* a producer puts a record *)
    destruct (Hps i _ H) as (t & done & Ht & Hd & Hprod).
    exists (<[i := done ++ [r]]> dones).
    rewrite records_of_app. simpl.
    split; [by apply merge_snoc|]. rewrite !length_insert.
    split; [done|]. split; [|by destruct la].
    intros j w Hw. destruct (decide (j = i)) as [->|Hne].
    + rewrite list_lookup_insert_eq in Hw by (by eapply lookup_lt_Some).
      injection Hw as <-. exists t, (done ++ [r]). split; [done|].
      split; [apply list_lookup_insert_eq; by eapply lookup_lt_Some|].
      rewrite Hprod. simpl. by rewrite <- app_assoc.
    + rewrite list_lookup_insert_ne in Hw by done.
      destruct (Hps j w Hw) as (t0 & done0 & H1 & H2 & H3).
      exists t0, done0. split; [done|]. split; [|done].
      by rewrite list_lookup_insert_ne.
  - (* a producer exits *)
    destruct (Hps i _ H) as (t & done & Ht & Hd & Hprod).
    exists dones. split; [done|]. rewrite !length_insert.
    split; [done|]. split; [|by destruct la].
    intros j w Hw. destruct (decide (j = i)) as [->|Hne].
    + rewrite list_lookup_insert_eq in Hw by (by eapply lookup_lt_Some).
      injection Hw as <-. exists t, done. by rewrite Hprod.
    + rewrite list_lookup_insert_ne in Hw by done. by apply Hps.
  - (* the sentinel *)
    exists dones. rewrite records_of_app. simpl. by rewrite app_nil_r.
Qed.

Lemma reachable_fifo s : reachable produce true tasks s -> Fifo s.
Proof.
  induction 1 as [|s s' Hr IH Hstep]; [apply init_fifo|].
  eapply step_fifo; [|done|done]. by apply reachable_inv.
Qed.

End FifoFacts.

(** X4.  In a concurrent batch the records on the queue are at every
    moment a merge of what the started processes have put: the records
    of each task appear in the order its producer put them, as a prefix
    of its output, whatever the interleaving of the processes.  When the
    launcher has put the sentinel, the queue is a merge of the whole
    outputs of all tasks. *)
Theorem concurrent_queue_keeps_producer_order
    (produce : Task -> list JobRecord) (tasks : list Task) (s : Batch.sys) :
  Batch.reachable produce true tasks s ->
  exists dones : list (list JobRecord),
    merge dones (records_of (Batch.q s))
    /\ (length dones <= length tasks)%nat
    /\ (forall i done, dones !! i = Some done ->
          exists t, tasks !! i = Some t /\ done `prefix_of` produce t)
    /\ (Batch.launcher s = Batch.Finished -> dones = map produce tasks).
Proof.
  intros Hreach.
  destruct (reachable_fifo _ _ _ Hreach) as (dones & Hm & Hlen & Hps & Hl).
  pose proof (reachable_inv _ _ _ _ Hreach) as (recs & _ & _ & _ & Hla).
  assert (Hle : (length (Batch.processes s) <= length tasks)%nat).
  { destruct (Batch.launcher s); lia. }
  exists dones. split; [done|]. split; [lia|]. split.
  - intros i done Hd.
    assert (Hi : (i < length (Batch.processes s))%nat).
    { rewrite <- Hlen. by eapply lookup_lt_Some. }
    destruct (lookup_lt_is_Some_2 _ _ Hi) as [w Hw].
    destruct (Hps i w Hw) as (t & done' & Ht & Hd' & Hprod).
    exists t. split; [done|]. rewrite Hd in Hd'. injection Hd' as <-.
    rewrite Hprod. by apply prefix_app_r.
  - intros Hf. rewrite Hf in Hla, Hl. destruct Hla as [Hex _].
    apply list_eq. intros i. rewrite list_lookup_fmap.
    destruct (Batch.processes s !! i) as [w|] eqn:Hw.
    + destruct (Hps i w Hw) as (t & done & Ht & Hd & Hprod).
      rewrite Ht, Hd. simpl. f_equal.
      rewrite (all_exited_lookup _ _ _ Hex Hw) in Hprod. simpl in Hprod.
      by rewrite app_nil_r in Hprod.
    + apply lookup_ge_None in Hw.
      rewrite (proj2 (lookup_ge_None dones i)) by lia.
      by rewrite (proj2 (lookup_ge_None tasks i)) by lia.
Qed.

Lemma concurrent_queue_keeps_producer_order_witness :
  exists dones : list (list JobRecord),
    merge dones [sample_record "上海"; sample_record "北京"; sample_record "Go"]
    /\ (length dones <= 2)%nat
    /\ (forall i done, dones !! i = Some done ->
          exists t, turn_tasks !! i = Some t /\ done `prefix_of` turn_produce t).
Proof.
  destruct (concurrent_queue_keeps_producer_order turn_produce turn_tasks
              turn_state turn_state_reachable) as (dones & Hm & Hlen & Hpre & _).
  exists dones. split; [exact Hm|]. split; [exact Hlen | exact Hpre].
Defined.

Lemma all_records_bounded (produce : Task -> list JobRecord) tasks n :
  (forall t, (length (produce t) <= n)%nat) ->
  (length (all_records produce tasks) <= length tasks * n)%nat.
Proof.
  intros Hp. unfold all_records. induction tasks as [|t tasks IH]; [done|].
  simpl. rewrite length_app. specialize (Hp t). lia.
Qed.

(** X5.  A batch whose tasks run with the limit [limit >= 0] never has
    more than [limit] records per task on the queue: at most
    (number of tasks) x [limit] records in all, in both modes and
    whatever the browsers and sessions do. *)
Theorem batch_records_bounded
    (py_repr : pyval -> string) (optionxform : string -> string)
    (interpolate : gmap string string -> string -> result string)
    (config : ConfigParser.t) (Chrome : Task -> result WebDriver)
    (limit : Z) (concurrent : bool) (tasks : list Task) (s : Batch.sys) :
  0 <= limit ->
  Batch.reachable
    (producer py_repr optionxform interpolate config Chrome limit)
    concurrent tasks s ->
  (length (records_of (Batch.q s)) <= length tasks * Z.to_nat limit)%nat.
Proof.
  intros Hlimit Hreach.
  destruct (reachable_inv _ _ _ _ Hreach) as (recs & Hq & Hperm & _).
  assert (Hrecs : records_of (Batch.q s) = recs).
  { rewrite Hq, records_of_app, records_of_records.
    destruct (Batch.launcher s); simpl; by rewrite app_nil_r. }
  rewrite Hrecs.
  etransitivity; [|apply all_records_bounded].
  - rewrite <- Hperm. rewrite length_app. lia.
  - intros t.
    pose proof (producer_within_limit py_repr optionxform interpolate config
                  Chrome limit t Hlimit). lia.
Qed.

Lemma sample_after_put_reachable :
  Batch.reachable sample_produce false sample_tasks sample_after_put.
Proof.
  unfold sample_after_put.
  assert (H : exists r todo, sample_produce ("北京", "Java") = r :: todo)
    by (vm_compute; eauto).
  destruct H as (r & todo & H). rewrite H.
  eapply Batch.reach_step;
    [|apply (Batch.step_serial_put sample_produce r todo [("上海", "Java")] [] [])].
  rewrite <- H.
  eapply Batch.reach_step;
    [|apply (Batch.step_serial_call sample_produce ("北京", "Java")
               [("上海", "Java")] [] [])].
  apply Batch.reach_init.
Qed.

Lemma batch_records_bounded_witness :
  length (records_of (Batch.q sample_after_put)) = 1%nat
  /\ (length (records_of (Batch.q sample_after_put))
      <= length sample_tasks * Z.to_nat 5)%nat.
Proof.
  split; [reflexivity|].
  exact (batch_records_bounded sample_repr id no_interpolation sample_config
           (fun _ => Ok sample_driver) 5 false sample_tasks
           sample_after_put ltac:(lia) sample_after_put_reachable).
Defined.

(** ** The writer on the queue of a batch *)

Section WriterOnQueue.

Import WriterProcess.

Variable arrivals : nat -> Arrival.
Variable recs : list JobRecord.
Hypothesis Htime : in_time (map QRecord recs ++ [QStop]) arrivals.

Lemma in_time_record k r :
  recs !! k = Some r -> queue_get 60 (arrivals k) = Ok (QRecord r).
Proof.
  intros Hr. destruct (Htime k (QRecord r)) as (delay & -> & Hd).
  { apply lookup_app_l_Some. by rewrite list_lookup_fmap, Hr. }
  simpl. by rewrite bool_decide_eq_true_2.
Qed.

Lemma in_time_stop : queue_get 60 (arrivals (length recs)) = Ok QStop.
Proof.
  destruct (Htime (length recs) QStop) as (delay & -> & Hd).
  { rewrite lookup_app_r by (by rewrite length_map).
    by rewrite length_map, Nat.sub_diag. }
  simpl. by rewrite bool_decide_eq_true_2.
Qed.

Lemma steps_in_time k :
  (k <= length recs)%nat ->
  WriterProcess.steps arrivals k
  = {| status := Draining; gets := k;
       artifact := header_row :: map row_of (take k recs) |}.
Proof.
  induction k as [|k IH]; intros Hk; [done|].
  change (WriterProcess.steps arrivals (S k))
    with (WriterProcess.step arrivals (WriterProcess.steps arrivals k)).
  rewrite IH by lia. unfold WriterProcess.step. cbn [status gets artifact].
  destruct (lookup_lt_is_Some_2 recs k ltac:(lia)) as [r Hr].
  rewrite (in_time_record _ _ Hr). f_equal.
  rewrite (take_S_r _ _ _ Hr), map_app. done.
Qed.

Lemma run_in_time :
  WriterProcess.run arrivals (S (length recs))
  = Some (Ok StopSignal, header_row :: map row_of recs).
Proof.
  unfold WriterProcess.run.
  change (WriterProcess.steps arrivals (S (length recs)))
    with (WriterProcess.step arrivals
            (WriterProcess.steps arrivals (length recs))).
  rewrite steps_in_time by done. unfold WriterProcess.step.
  cbn [status gets artifact]. rewrite in_time_stop. simpl.
  by rewrite take_ge by done.
Qed.

End WriterOnQueue.

(** X6.  When a batch has put its sentinel and the writer finds every
    item of the queue within 60 seconds, the writer stops on the
    sentinel, and the artifact is the header followed by one row for each
    record of the queue, in queue order; in serial mode these are the
    records of all tasks in task order. *)
Theorem writer_writes_whole_batch
    (produce : Task -> list JobRecord) (concurrent : bool) (tasks : list Task)
    (s : Batch.sys) (arrivals : nat -> WriterProcess.Arrival) :
  Batch.reachable produce concurrent tasks s ->
  Batch.launcher s = Batch.Finished ->
  in_time (Batch.q s) arrivals ->
  WriterProcess.run arrivals (length (Batch.q s))
  = Some (Ok WriterProcess.StopSignal,
          WriterProcess.header_row
          :: map WriterProcess.row_of (records_of (Batch.q s)))
  /\ (concurrent = false ->
      records_of (Batch.q s) = all_records produce tasks).
Proof.
  intros Hreach Hf Htime.
  destruct (reachable_inv _ _ _ _ Hreach) as (recs & Hq & _ & Hser & _).
  rewrite Hf in Hq, Hser. simpl in Hser.
  rewrite Hq in *. rewrite records_of_app, records_of_records. simpl.
  rewrite app_nil_r, length_app, length_map. simpl.
  replace (length recs + 1)%nat with (S (length recs)) by lia.
  split; [by apply run_in_time|].
  intros Hc. destruct (Hser Hc) as [_ Hall]. by rewrite app_nil_r in Hall.
Qed.

Lemma at_once_in_time qu : in_time qu (at_once qu).
Proof.
  intros k item Hk. exists 0. unfold at_once. rewrite Hk. split; [done|lia].
Qed.

Lemma writer_writes_whole_batch_witness :
  WriterProcess.run (at_once (Batch.q tiny_final)) 2
  = Some (Ok WriterProcess.StopSignal,
          [WriterProcess.header_row;
           WriterProcess.row_of (sample_record "a")]).
Proof.
  exact (proj1 (writer_writes_whole_batch tiny_produce false tiny_tasks
                  tiny_final (at_once (Batch.q tiny_final))
                  tiny_final_reachable eq_refl
                  (at_once_in_time (Batch.q tiny_final)))).
Defined.

(** ** The task list, continued *)

Lemma tasks_of_elem cities jobs city job :
  (city, job) ∈ tasks_of cities jobs <-> city ∈ cities /\ job ∈ jobs.
Proof.
  unfold tasks_of. rewrite !list_elem_of_In, in_flat_map. split.
  - intros (c & Hc & Hin). apply in_map_iff in Hin as (j & [= <- <-] & Hj).
    done.
  - intros [Hc Hj]. exists city. split; [done|].
    apply in_map_iff. by exists job.
Qed.

Lemma tasks_of_length cities jobs :
  length (tasks_of cities jobs) = (length cities * length jobs)%nat.
Proof.
  unfold tasks_of. induction cities as [|c cities IH]; [done|].
  simpl. rewrite length_app, length_map. f_equal. exact IH.
Qed.

Lemma tasks_of_NoDup cities jobs :
  NoDup cities -> NoDup jobs -> NoDup (tasks_of cities jobs).
Proof.
  intros Hc Hj. unfold tasks_of. induction Hc as [|c cities Hnin Hc IH]; simpl.
  - constructor.
  - apply NoDup_app. split; [|split; [|done]].
    + apply NoDup_fmap_2; [|done]. by intros j1 j2 [= ->].
    + intros [c' j'] Hin1 Hin2.
      apply list_elem_of_fmap in Hin1 as (j & [= -> ->] & _).
      apply (tasks_of_elem cities jobs c j) in Hin2 as [Hin2 _]. done.
Qed.

(** X7.  [run_crawl_once] starts a task for a pair of city and job exactly
    when the city is in the city list and the job in the job list; the
    tasks are as many as cities times jobs; and when neither list repeats
    an entry no pair is crawled twice. *)
Theorem tasks_are_the_pairs (dict_parameter : Param.t) :
  (forall city job,
     (city, job) ∈ tasks dict_parameter
     <-> city ∈ city_list dict_parameter /\ job ∈ job_list dict_parameter)
  /\ length (tasks dict_parameter)
     = (length (city_list dict_parameter) * length (job_list dict_parameter))%nat
  /\ (NoDup (city_list dict_parameter) -> NoDup (job_list dict_parameter) ->
      NoDup (tasks dict_parameter)).
Proof.
  split; [|split].
  - intros city job. apply tasks_of_elem.
  - apply tasks_of_length.
  - apply tasks_of_NoDup.
Qed.

Lemma tasks_are_the_pairs_witness : NoDup (tasks night_parameter).
Proof.
  apply (proj2 (proj2 (tasks_are_the_pairs night_parameter))).
  - apply NoDup_singleton.
  - apply NoDup_singleton.
Defined.

(** ** The HTML preview, continued *)

Section CountFacts.

Context (P : string -> Prop) `{!forall x, Decision (P x)}.



End CountFacts.












(** ** The timer loop, continued *)

Lemma in_window_minutes bh bm eh em now :
  0 <= bh < 24 -> 0 <= bm < 60 -> 0 <= eh < 24 -> 0 <= em < 60 ->
  valid_time now ->
  in_window bh bm eh em now = Ok (bool_decide (inside bh bm eh em now)).
Proof.
  intros Hbh Hbm Heh Hem Hnow. unfold in_window.
  rewrite !replace_time_valid by done. simpl.
  rewrite dt_le_replace, dt_lt_replace by done. unfold inside.
  f_equal. repeat case_bool_decide; simpl; (done || lia).
Qed.

Lemma tick_outside bh bm eh em interval_minutes now :
  0 <= bh < 24 -> 0 <= bm < 60 -> 0 <= eh < 24 -> 0 <= em < 60 ->
  valid_time now -> ~ inside bh bm eh em now ->
  tick bh bm eh em interval_minutes now = ([Sleep 60], Ok tt).
Proof.
  intros Hbh Hbm Heh Hem Hnow Hout. unfold tick.
  rewrite in_window_minutes by done.
  by rewrite bool_decide_eq_false_2 by done.
Qed.

Lemma timer_loop_outside bh bm eh em interval_minutes clock k n :
  0 <= bh < 24 -> 0 <= bm < 60 -> 0 <= eh < 24 -> 0 <= em < 60 ->
  (forall j, (k <= j < k + n)%nat ->
     valid_time (clock j) /\ ~ inside bh bm eh em (clock j)) ->
  timer_loop bh bm eh em interval_minutes clock k n
  = (replicate n (Sleep 60), Ok tt).
Proof.
  intros Hbh Hbm Heh Hem. revert k. induction n as [|n IH]; intros k Hout;
    [done|].
  simpl. destruct (Hout k ltac:(lia)) as [Hv Ho].
  rewrite tick_outside by done. rewrite IH; [done|].
  intros j Hj. apply Hout. lia.
Qed.

Lemma timer_loop_app bh bm eh em interval_minutes clock k n m :
  timer_loop bh bm eh em interval_minutes clock k (n + m)
  = match timer_loop bh bm eh em interval_minutes clock k n with
    | (evs, Ok _) =>
      let '(evs', r) :=
        timer_loop bh bm eh em interval_minutes clock (k + n) m in
      (evs ++ evs', r)
    | (evs, Raise e) => (evs, Raise e)
    end.
Proof.
  revert k. induction n as [|n IH]; intros k.
  - simpl. rewrite Nat.add_0_r.
    by destruct (timer_loop _ _ _ _ _ _ _ _) as [evs r].
  - simpl. destruct (tick _ _ _ _ _ _) as [evs [[]|e]]; [|done].
    rewrite IH. replace (S k + n)%nat with (k + S n)%nat by lia.
    destruct (timer_loop bh bm eh em interval_minutes clock (S k) n)
      as [evs1 [[]|e1]]; [|done].
    destruct (timer_loop bh bm eh em interval_minutes clock (k + S n) m)
      as [evs2 r2]. by rewrite app_assoc.
Qed.

(** X9.  A window whose end is not after its beginning on the clock face,
    such as one meant to cross midnight, never opens: with such a window
    the timer loop of [main] runs no batch at any pass and only sleeps 60
    seconds each time, whatever the interval. *)
Theorem window_over_midnight_never_opens
    (dict_parameter : Param.t) (bh bm eh em interval_minutes : Z)
    (clock : nat -> datetime) (ticks : nat) :
  Param.timer dict_parameter
  = Some {| enable := true; begin_hour := Some bh; begin_minute := Some bm;
            end_hour := Some eh; end_minute := Some em;
            interval := Some interval_minutes |} ->
  0 <= bh < 24 -> 0 <= bm < 60 -> 0 <= eh < 24 -> 0 <= em < 60 ->
  minute_of_day eh em <= minute_of_day bh bm ->
  (forall k, valid_time (clock k)) ->
  main dict_parameter clock ticks = (replicate ticks (Sleep 60), Ok tt).
Proof.
  intros Htimer Hbh Hbm Heh Hem Hcross Hclock. unfold main.
  rewrite Htimer. simpl. apply timer_loop_outside; try done.
  intros j _. split; [done|]. unfold inside. lia.
Qed.

Lemma at_time_valid h m s :
  0 <= h < 24 -> 0 <= m < 60 -> 0 <= s < 60 -> valid_time (at_time h m s).
Proof. intros. unfold valid_time, at_time. simpl. lia. Qed.

Lemma window_over_midnight_never_opens_witness :
  main (timer_parameter late_timer) (fun _ => at_time 23 30 0) 3
  = ([Sleep 60; Sleep 60; Sleep 60], Ok tt).
Proof.
  exact (window_over_midnight_never_opens (timer_parameter late_timer)
           22 0 2 0 60 (fun _ => at_time 23 30 0) 3 eq_refl
           ltac:(lia) ltac:(lia) ltac:(lia) ltac:(lia)
           ltac:(unfold minute_of_day; lia)
           (fun _ => at_time_valid 23 30 0 ltac:(lia) ltac:(lia) ltac:(lia))).
Defined.

(** X10.  With the timer enabled, bad settings stop [main] before any
    batch: a missing key is a [KeyError] before the loop starts; at the
    first pass, an hour or a minute of the beginning that does not fit a C
    [int] is an [OverflowError], one that fits and lies outside 0..23 or
    0..59 a [ValueError], and with a good beginning the same holds of the
    end.  In each case nothing is run and nothing is slept. *)
Theorem bad_timer_settings_run_nothing
    (dict_parameter : Param.t) (ts : TimerSettings)
    (clock : nat -> datetime) (ticks : nat) :
  Param.timer dict_parameter = Some ts -> enable ts = true ->
  (begin_hour ts = None \/ begin_minute ts = None \/ end_hour ts = None
   \/ end_minute ts = None \/ interval ts = None ->
   main dict_parameter clock ticks = ([], Raise KeyError))
  /\ (forall bh bm eh em interval_minutes,
        begin_hour ts = Some bh -> begin_minute ts = Some bm ->
        end_hour ts = Some eh -> end_minute ts = Some em ->
        interval ts = Some interval_minutes ->
        let out := main dict_parameter clock (S ticks) in
        (~ (fits_int bh /\ fits_int bm) -> out = ([], Raise OverflowError))
        /\ (fits_int bh /\ fits_int bm -> ~ (0 <= bh < 24 /\ 0 <= bm < 60) ->
            out = ([], Raise ValueError))
        /\ (0 <= bh < 24 /\ 0 <= bm < 60 -> ~ (fits_int eh /\ fits_int em) ->
            out = ([], Raise OverflowError))
        /\ (0 <= bh < 24 /\ 0 <= bm < 60 -> fits_int eh /\ fits_int em ->
            ~ (0 <= eh < 24 /\ 0 <= em < 60) ->
            out = ([], Raise ValueError))).
Proof.
  intros Htimer Hen. split.
  - intros Hmiss. unfold main. rewrite Htimer. simpl. rewrite Hen. simpl.
    destruct (begin_hour ts), (begin_minute ts), (end_hour ts),
      (end_minute ts), (interval ts); simpl; try done;
      destruct Hmiss as [?|[?|[?|[?|?]]]]; discriminate.
  - intros bh bm eh em iv Hbh Hbm Heh Hem Hiv out. subst out.
    unfold main. rewrite Htimer. simpl. rewrite Hen, Hbh, Hbm, Heh, Hem, Hiv.
    simpl. unfold tick, in_window. split; [|split; [|split]].
    + intros Hfit. unfold replace_time.
      by rewrite (bool_decide_eq_false_2 _ Hfit).
    + intros Hfit Hbad. unfold replace_time.
      rewrite (bool_decide_eq_true_2 _ Hfit).
      by rewrite (bool_decide_eq_false_2 _ Hbad).
    + intros [Hh Hm] Hfit. rewrite (replace_time_valid _ bh bm) by done.
      unfold replace_time. simpl.
      by rewrite (bool_decide_eq_false_2 _ Hfit).
    + intros [Hh Hm] Hfit Hbad. rewrite (replace_time_valid _ bh bm) by done.
      unfold replace_time. simpl.
      rewrite (bool_decide_eq_true_2 _ Hfit).
      by rewrite (bool_decide_eq_false_2 _ Hbad).
Qed.

Lemma bad_timer_settings_run_nothing_witness :
  main (timer_parameter wrong_timer) (fun _ => at_time 3 0 0) 1
  = ([], Raise ValueError)
  /\ main (timer_parameter huge_timer) (fun _ => at_time 3 0 0) 1
     = ([], Raise OverflowError).
Proof.
  split.
  - pose proof (proj2 (bad_timer_settings_run_nothing
                         (timer_parameter wrong_timer) wrong_timer
                         (fun _ => at_time 3 0 0) 0 eq_refl eq_refl)
                  2 0 24 0 60 eq_refl eq_refl eq_refl eq_refl eq_refl)
      as (_ & _ & _ & H).
    apply H; unfold fits_int; lia.
  - pose proof (proj2 (bad_timer_settings_run_nothing
                         (timer_parameter huge_timer) huge_timer
                         (fun _ => at_time 3 0 0) 0 eq_refl eq_refl)
                  2147483648 0 5 0 60 eq_refl eq_refl eq_refl eq_refl eq_refl)
      as (H & _).
    apply H. unfold fits_int. lia.
Defined.

(** X11.  With a negative interval the timer loop runs one batch and no
    more: it sleeps 60 seconds at each pass before the window, runs a
    batch at the first pass inside the window, and then ends with the
    error of the sleep: a [ValueError] when the seconds of the interval
    are no further below zero than [SLEEP_MAX], an [OverflowError]
    otherwise. *)
Theorem negative_interval_runs_one_batch
    (dict_parameter : Param.t) (bh bm eh em interval_minutes : Z)
    (clock : nat -> datetime) (k more : nat) :
  Param.timer dict_parameter
  = Some {| enable := true; begin_hour := Some bh; begin_minute := Some bm;
            end_hour := Some eh; end_minute := Some em;
            interval := Some interval_minutes |} ->
  0 <= bh < 24 -> 0 <= bm < 60 -> 0 <= eh < 24 -> 0 <= em < 60 ->
  interval_minutes < 0 ->
  (forall j, valid_time (clock j)) ->
  (forall j, (j < k)%nat -> ~ inside bh bm eh em (clock j)) ->
  inside bh bm eh em (clock k) ->
  (- SLEEP_MAX <= interval_minutes * 60 ->
   main dict_parameter clock (k + S more)
   = (replicate k (Sleep 60) ++ [RunBatch], Raise ValueError))
  /\ (interval_minutes * 60 < - SLEEP_MAX ->
      main dict_parameter clock (k + S more)
      = (replicate k (Sleep 60) ++ [RunBatch], Raise OverflowError)).
Proof.
  intros Htimer Hbh Hbm Heh Hem Hneg Hclock Hbefore Hin. unfold main.
  rewrite Htimer. simpl. rewrite timer_loop_app.
  rewrite timer_loop_outside; try done.
  2:{ intros j Hj. split; [done|]. apply Hbefore. lia. }
  simpl. unfold tick. rewrite in_window_minutes by done.
  rewrite bool_decide_eq_true_2 by done. unfold time_sleep. split.
  - intros Hfar. rewrite bool_decide_eq_true_2 by (unfold SLEEP_MAX in *; lia).
    by rewrite bool_decide_eq_false_2 by lia.
  - intros Hfar. by rewrite bool_decide_eq_false_2 by lia.
Qed.

Lemma negative_interval_runs_one_batch_witness :
  main (timer_parameter hasty_timer) night_clock 3
  = ([Sleep 60; RunBatch], Raise ValueError)
  /\ main (timer_parameter remote_timer) night_clock 3
     = ([Sleep 60; RunBatch], Raise OverflowError).
Proof.
  assert (Hbefore : forall j, (j < 1)%nat -> ~ inside 2 0 5 0 (night_clock j)).
  { intros j Hj. assert (j = 0%nat) as -> by lia.
    unfold inside, minute_of_day. simpl. lia. }
  assert (Hin : inside 2 0 5 0 (night_clock 1)).
  { unfold inside, minute_of_day. simpl. lia. }
  split.
  - apply (negative_interval_runs_one_batch (timer_parameter hasty_timer)
             2 0 5 0 (-1) night_clock 1 1 eq_refl
             ltac:(lia) ltac:(lia) ltac:(lia) ltac:(lia) ltac:(lia)
             night_clock_valid Hbefore Hin).
    unfold SLEEP_MAX. lia.
  - apply (negative_interval_runs_one_batch (timer_parameter remote_timer)
             2 0 5 0 (-153722868) night_clock 1 1 eq_refl
             ltac:(lia) ltac:(lia) ltac:(lia) ltac:(lia) ltac:(lia)
             night_clock_valid Hbefore Hin).
    unfold SLEEP_MAX. lia.
Defined.

(** ** The web route *)

Lemma timer_loop_no_key_error bh bm eh em interval_minutes clock k n :
  snd (timer_loop bh bm eh em interval_minutes clock k n) <> Raise KeyError.
Proof.
  revert k. induction n as [|n IH]; intros k; [done|].
  simpl. destruct (tick _ _ _ _ _ _) as [evs [[]|e]] eqn:Ht.
  - specialize (IH (S k)).
    by destruct (timer_loop bh bm eh em interval_minutes clock (S k) n).
  - simpl. unfold tick, in_window, replace_time, time_sleep in Ht.
    repeat (case_bool_decide || simpl in Ht || case_match);
      injection Ht as <- <-; done.
Qed.

Section ServerFacts.

Variable py_int : string -> result Z.

Lemma get_spider_inv form dict_parameter feedback :
  Server.get_spider py_int form = Ok (dict_parameter, feedback) ->
  exists limit_per_task bh bm eh em iv,
    py_int (default "999999" (Server.get form "limit")) = Ok limit_per_task
    /\ dict_parameter
       = {| Param.city := Some (Server.getlist form "city");
            Param.job := Some (Server.getlist form "job");
            Param.limit := Some limit_per_task;
            Param.concurrent := Some (Server.has form "multithread");
            Param.timer :=
              Some {| enable := Server.has form "enable_timer";
                      begin_hour := Some bh; begin_minute := Some bm;
                      end_hour := Some eh; end_minute := Some em;
                      interval := Some iv |} |}.
Proof.
  unfold Server.get_spider.
  destruct (py_int (default "999999" (Server.get form "limit")))
    as [limit_per_task|]; [|done]. simpl.
  destruct (Server.int_field py_int form "begin_hour" 2) as [bh|]; [|done].
  simpl.
  destruct (Server.int_field py_int form "begin_minute" 0) as [bm|]; [|done].
  simpl.
  destruct (Server.int_field py_int form "end_hour" 5) as [eh|]; [|done].
  simpl.
  destruct (Server.int_field py_int form "end_minute" 0) as [em|]; [|done].
  simpl.
  destruct (Server.int_field py_int form "interval" 60) as [iv|]; [|done].
  simpl. intros [= <- _]. by exists limit_per_task, bh, bm, eh, em, iv.
Qed.

End ServerFacts.

(** X12.  Whenever the route [get_spider] starts a crawl, the dict it
    hands to [main] has every key: the city and job lists, the limit, the
    mode, and a timer with all five of its numbers.  So [main], started
    from the route, never fails on a missing timer key. *)
Theorem route_passes_every_key
    (py_int : string -> result Z) (form : Server.Form)
    (dict_parameter : Param.t) (feedback : string * string) :
  Server.get_spider py_int form = Ok (dict_parameter, feedback) ->
  Param.city dict_parameter = Some (Server.getlist form "city")
  /\ Param.job dict_parameter = Some (Server.getlist form "job")
  /\ is_Some (Param.limit dict_parameter)
  /\ Param.concurrent dict_parameter = Some (Server.has form "multithread")
  /\ (exists bh bm eh em iv,
        Param.timer dict_parameter
        = Some {| enable := Server.has form "enable_timer";
                  begin_hour := Some bh; begin_minute := Some bm;
                  end_hour := Some eh; end_minute := Some em;
                  interval := Some iv |})
  /\ forall clock ticks,
       snd (main dict_parameter clock ticks) <> Raise KeyError.
Proof.
  intros Hget.
  destruct (get_spider_inv _ _ _ _ Hget)
    as (limit_per_task & bh & bm & eh & em & iv & _ & ->).
  simpl. repeat (split; [by eauto 10|]).
  intros clock ticks. unfold main. simpl.
  destruct (Server.has form "enable_timer"); simpl; [|done].
  apply timer_loop_no_key_error.
Qed.

Lemma route_passes_every_key_witness :
  exists dict_parameter feedback,
    Server.get_spider sample_int sample_form = Ok (dict_parameter, feedback)
    /\ Param.job dict_parameter = Some ["Java"].
Proof.
  eexists _, _. split; [reflexivity|].
  exact (proj1 (proj2 (route_passes_every_key sample_int sample_form _ _
                         eq_refl))).
Defined.

(** X13.  A crawl started from the route with no city in the form runs
    over all default cities, and likewise for jobs; it is serial unless
    the box [multithread] is ticked, although [run_crawl_once] on its own
    defaults to the concurrent mode; and its limit is the number read
    from the field [limit], or from the text 999999 without that field. *)
Theorem route_defaults
    (py_int : string -> result Z) (form : Server.Form)
    (dict_parameter : Param.t) (feedback : string * string) :
  Server.get_spider py_int form = Ok (dict_parameter, feedback) ->
  (Server.getlist form "city" = [] -> city_list dict_parameter = DEFAULT_CITIES)
  /\ (Server.getlist form "job" = [] -> job_list dict_parameter = DEFAULT_JOBS)
  /\ (Server.getlist form "city" <> [] ->
      city_list dict_parameter = Server.getlist form "city")
  /\ use_concurrent dict_parameter = Server.has form "multithread"
  /\ py_int (default "999999" (Server.get form "limit"))
     = Ok (limit_per_task dict_parameter).
Proof.
  intros Hget.
  destruct (get_spider_inv _ _ _ _ Hget)
    as (limit & bh & bm & eh & em & iv & Hlimit & ->).
  unfold city_list, job_list, use_concurrent, limit_per_task. simpl.
  split; [by intros ->|]. split; [by intros ->|]. split; [|done].
  by destruct (Server.getlist form "city").
Qed.

Lemma route_defaults_witness :
  exists dict_parameter feedback,
    Server.get_spider sample_int sample_form = Ok (dict_parameter, feedback)
    /\ city_list dict_parameter = DEFAULT_CITIES
    /\ use_concurrent dict_parameter = false
    /\ limit_per_task dict_parameter = 5.
Proof.
  eexists _, _. split; [reflexivity|].
  destruct (route_defaults sample_int sample_form _ _ eq_refl)
    as (Hc & _ & _ & Hm & Hl).
  split; [exact (Hc eq_refl)|]. split; [exact Hm|]. reflexivity.
Defined.

(** ** The shape of the artifact *)

(** X14.  At every pass of the writer the rows handed to the csv writer
    are a table of ten columns: the first is the header of the ten names,
    every row has ten cells, and no row is removed or changed once handed
    over.  The file on the disk lags behind, for the loop never flushes
    it: it holds the first rows handed over, possibly none at all, each
    of ten cells, and once the writer has left the loop it holds all of
    them, the header first. *)
Theorem artifact_is_rectangular
    (arrivals : nat -> WriterProcess.Arrival)
    (sync : list (list pyval) -> nat) (n : nat) :
  let s := WriterProcess.steps arrivals n in
  let header :=
    [PStr "provider"; PStr "keyword"; PStr "title"; PStr "place";
     PStr "salary"; PStr "experience"; PStr "education"; PStr "companytype";
     PStr "industry"; PStr "description"] in
  (head (WriterProcess.artifact s) = Some header
   /\ Forall (fun row => length row = 10%nat) (WriterProcess.artifact s)
   /\ WriterProcess.artifact s
      `prefix_of` WriterProcess.artifact (WriterProcess.steps arrivals (S n)))
  /\ (WriterProcess.on_disk sync s `prefix_of` WriterProcess.artifact s
      /\ Forall (fun row => length row = 10%nat) (WriterProcess.on_disk sync s)
      /\ (forall how, WriterProcess.status s = WriterProcess.Exited how ->
            WriterProcess.on_disk sync s = WriterProcess.artifact s
            /\ head (WriterProcess.on_disk sync s) = Some header)).
Proof.
  cbv zeta.
  assert (Hhead : head (WriterProcess.artifact (WriterProcess.steps arrivals n))
                  = Some WriterProcess.header_row).
  { induction n as [|n IH]; [done|].
    change (WriterProcess.steps arrivals (S n))
      with (WriterProcess.step arrivals (WriterProcess.steps arrivals n)).
    unfold WriterProcess.step.
    repeat case_match; simpl; try done.
    destruct (WriterProcess.artifact (WriterProcess.steps arrivals n));
      [done|]. done. }
  assert (Hten : Forall (fun row => length row = 10%nat)
                   (WriterProcess.artifact (WriterProcess.steps arrivals n))).
  { clear Hhead. induction n as [|n IH]; [by repeat constructor|].
    change (WriterProcess.steps arrivals (S n))
      with (WriterProcess.step arrivals (WriterProcess.steps arrivals n)).
    unfold WriterProcess.step.
    repeat case_match; simpl; try done.
    apply Forall_app. split; [done|]. by repeat constructor. }
  split; [split; [exact Hhead|split; [exact Hten|]]|split; [|split]].
  - change (WriterProcess.steps arrivals (S n))
      with (WriterProcess.step arrivals (WriterProcess.steps arrivals n)).
    unfold WriterProcess.step.
    repeat case_match; simpl; try done.
    by apply prefix_app_r.
  - apply on_disk_prefix.
  - destruct (on_disk_prefix sync (WriterProcess.steps arrivals n)) as [k Hk].
    rewrite Hk in Hten. by apply Forall_app in Hten as [? _].
  - intros how Hst. unfold WriterProcess.on_disk. rewrite Hst.
    split; [done | exact Hhead].
Qed.

Lemma artifact_is_rectangular_witness :
  WriterProcess.on_disk unflushed (WriterProcess.steps sample_arrivals 2) = []
  /\ WriterProcess.on_disk unflushed (WriterProcess.steps sample_arrivals 3)
     = WriterProcess.artifact (WriterProcess.steps sample_arrivals 3)
  /\ length (WriterProcess.on_disk unflushed
               (WriterProcess.steps sample_arrivals 3)) = 3%nat
  /\ head (WriterProcess.on_disk unflushed
             (WriterProcess.steps sample_arrivals 3))
     = Some [PStr "provider"; PStr "keyword"; PStr "title"; PStr "place";
             PStr "salary"; PStr "experience"; PStr "education";
             PStr "companytype"; PStr "industry"; PStr "description"].
Proof.
  split; [reflexivity|].
  destruct (proj2 (proj2 (proj2 (artifact_is_rectangular sample_arrivals
                                   unflushed 3)))
              (Ok WriterProcess.StopSignal) eq_refl) as [Hall Hhead].
  split; [exact Hall|]. split; [reflexivity | exact Hhead].
Defined.

(** ** The keywords of a batch *)

Lemma all_records_elem (produce : Task -> list JobRecord) tasks r :
  r ∈ all_records produce tasks -> exists t, t ∈ tasks /\ r ∈ produce t.
Proof.
  unfold all_records. rewrite list_elem_of_In, in_concat.
  intros (l & Hl & Hr). apply in_map_iff in Hl as (t & <- & Ht).
  exists t. by rewrite !list_elem_of_In.
Qed.

(** X15.  Every record on the queue of a batch carries the provider name
    and the job keyword of one of the tasks of the batch, in both modes
    and whatever the sessions answer. *)
Theorem batch_records_carry_task_keyword
    (py_repr : pyval -> string) (optionxform : string -> string)
    (interpolate : gmap string string -> string -> result string)
    (config : ConfigParser.t) (Chrome : Task -> result WebDriver)
    (limit : Z) (concurrent : bool) (tasks : list Task) (s : Batch.sys)
    (r : JobRecord) :
  Batch.reachable
    (producer py_repr optionxform interpolate config Chrome limit)
    concurrent tasks s ->
  r ∈ records_of (Batch.q s) ->
  provider r = "前程无忧网"
  /\ exists city job, (city, job) ∈ tasks /\ keyword r = job.
Proof.
  intros Hreach Hr.
  destruct (reachable_inv _ _ _ _ Hreach) as (recs & Hq & Hperm & _).
  assert (Hrecs : records_of (Batch.q s) = recs).
  { rewrite Hq, records_of_app, records_of_records.
    destruct (Batch.launcher s); simpl; by rewrite app_nil_r. }
  rewrite Hrecs in Hr.
  assert (Hall : r ∈ all_records
                   (producer py_repr optionxform interpolate config Chrome limit)
                   tasks).
  { rewrite <- Hperm. apply elem_of_app. by left. }
  apply all_records_elem in Hall as ([city job] & Ht & Hin).
  unfold producer, run_single_task in Hin. simpl in Hin.
  destruct (Chrome (city, job)) as [process_driver|];
    [|by apply elem_of_nil in Hin].
  destruct (get_city_code _ _ _ _) as [[city_code out]|];
    [|by apply elem_of_nil in Hin].
  match type of Hin with
  | _ ∈ Job51Spider.queue (Job51Spider.steps ?p ?sp ?n) =>
    destruct (step_keyword_all p sp n r Hin) as [Hp Hk]
  end.
  split; [done|]. exists city, job. by split.
Qed.

Lemma batch_records_carry_task_keyword_witness :
  exists r,
    r ∈ records_of (Batch.q sample_after_put)
    /\ provider r = "前程无忧网".
Proof.
  assert (H : exists r, r ∈ records_of (Batch.q sample_after_put))
    by (vm_compute; eexists; apply list_elem_of_here).
  destruct H as [r Hr]. exists r. split; [exact Hr|].
  exact (proj1 (batch_records_carry_task_keyword sample_repr id
                  no_interpolation sample_config (fun _ => Ok sample_driver) 5
                  false sample_tasks sample_after_put r
                  sample_after_put_reachable Hr)).
Defined.
